(** * BookBrainz site: server helpers and the entity deletion form

    A shallow embedding of the helper layer of the BookBrainz web
    application (entity links, model lookup by type name, BBID validation,
    identifier-type filtering, page titles) and of the part of the
    [EntityDeletionForm] React component that computes its URLs.

    JavaScript values are modelled as far as the helpers look at them:
    strings as [string], the built-in [String.prototype.toLowerCase] as a
    function the runtime provides, absent properties as [None], abrupt
    completions ([throw]) as a sum type, object literals as finite maps
    that inherit from [%Object.prototype%], [Set] as a finite set, and a
    regular expression literal as a syntax tree run by a continuation
    matcher in the style of the ECMAScript pattern semantics. *)

From Stdlib Require Import Ascii String List ZArith Lia Bool.
From stdpp Require Import base option list strings gmap.

Set Default Proof Using "Type".

(** ** Completions *)

(** What a [throw] statement can carry in these files: [new Error(msg)], or
    the [TypeError] the runtime raises when a property of [undefined] is
    read (its message is engine specific and left out). *)
Inductive exn : Type :=
| Error (message : string)
| TypeError.

Inductive completion (A : Type) : Type :=
| Return (a : A)
| Throw (e : exn).
Arguments Return {A} a.
Arguments Throw {A} e.

Global Instance completion_ret : MRet completion := fun A a => Return a.

Global Instance completion_bind : MBind completion := fun A B k m =>
  match m with
  | Return a => k a
  | Throw e => Throw e
  end.

Global Instance exn_eq_dec : EqDecision exn.
Proof. solve_decision. Defined.

(** ** Strings *)

(** Lowercasing of the ASCII letters: [A-Z] go to [a-z], every other
    character stays. *)
Definition ascii_toLowerCase (c : ascii) : ascii :=
  let n := N_of_ascii c in
  if (65 <=? n)%N && (n <=? 90)%N then ascii_of_N (n + 32) else c.

Fixpoint toLowerCase_ascii (s : string) : string :=
  match s with
  | EmptyString => EmptyString
  | String c s' => String (ascii_toLowerCase c) (toLowerCase_ascii s')
  end.

(** A string of ASCII characters only. *)
Definition ascii_only (s : string) : Prop :=
  Forall (λ c, (N_of_ascii c < 128)%N) (list_ascii_of_string s).

(** [String.prototype.toLowerCase] is a built-in of the runtime: it maps
    every cased letter of Unicode to its lowercase form.  The helpers take
    it as it is; what is fixed of it here is its action on strings of ASCII
    characters, where it lowercases [A-Z] and changes nothing else. *)
Class StringBuiltins : Type := {
  toLowerCase : string → string;
  toLowerCase_ascii_only :
    ∀ s, ascii_only s → toLowerCase s = toLowerCase_ascii s
}.

(** The built-ins cut down to ASCII, to run the helpers on ASCII type
    names. *)
Definition ascii_builtins : StringBuiltins :=
  {| toLowerCase := toLowerCase_ascii;
     toLowerCase_ascii_only := λ s _, eq_refl |}.

Definition ascii_toUpperCase (c : ascii) : ascii :=
  let n := N_of_ascii c in
  if (97 <=? n)%N && (n <=? 122)%N then ascii_of_N (n - 32) else c.

(** [ToString] of a property that is a string when present: an absent
    property reads as [undefined] and prints as such. *)
Definition ToString (v : option string) : string :=
  match v with
  | Some s => s
  | None => "undefined"
  end.

(** An untagged template literal: the cooked strings with the substituted
    values (already converted by [ToString]) between them. *)
Fixpoint TemplateLiteral (strings substitutions : list string) : string :=
  match strings, substitutions with
  | s :: strings', v :: substitutions' =>
      s +:+ v +:+ TemplateLiteral strings' substitutions'
  | s :: _, [] => s
  | [], _ => ""
  end.

(** ** Regular expressions *)

Module RegExp.

(** The pattern syntax the sources use: the assertions [^] and [$], a
    pattern character, a class of ranges [[a-bc-d]], concatenation and
    the counted quantifier [{n}]. *)
Inductive regex : Type :=
| Empty
| AssertStart
| AssertEnd
| Char (c : ascii)
| Class (ranges : list (ascii * ascii))
| Seq (r1 r2 : regex)
| Repeat (r : regex) (n : nat).

Record Flags : Type := mkFlags {
  global : bool;
  ignoreCase : bool;
  multiline : bool;
  sticky : bool
}.

(** A RegExp object: pattern and flags are fixed at creation, [lastIndex]
    is a writable property. *)
Record t : Type := mk {
  source : regex;
  flags : Flags;
  lastIndex : nat
}.

Definition in_range (c : ascii) (r : ascii * ascii) : bool :=
  (N_of_ascii (fst r) <=? N_of_ascii c)%N && (N_of_ascii c <=? N_of_ascii (snd r))%N.

Definition in_ranges (ranges : list (ascii * ascii)) (c : ascii) : bool :=
  existsb (in_range c) ranges.

Definition IsLineTerminator (c : ascii) : bool :=
  (N_of_ascii c =? 10)%N || (N_of_ascii c =? 13)%N.

Section Matcher.
Variable fl : Flags.
Variable Input : list ascii.

(** A continuation takes the end index reached so far and returns the
    final end index of the whole match, or [None] on failure. *)
Definition Continuation : Type := nat → option nat.

(** With [ignoreCase] two characters match when they canonicalize to the
    same character. *)
Definition class_matches (ranges : list (ascii * ascii)) (ch : ascii) : bool :=
  if ignoreCase fl
  then in_ranges ranges ch || in_ranges ranges (ascii_toUpperCase ch)
       || in_ranges ranges (ascii_toLowerCase ch)
  else in_ranges ranges ch.

Definition char_matches (c ch : ascii) : bool :=
  if ignoreCase fl
  then bool_decide (ascii_toUpperCase c = ascii_toUpperCase ch)
  else bool_decide (c = ch).

Definition CharacterSetMatcher (A : ascii → bool) (x : nat) (c : Continuation)
  : option nat :=
  match Input !! x with
  | None => None
  | Some ch => if A ch then c (S x) else None
  end.

Definition at_line_start (x : nat) : bool :=
  match x with
  | O => true
  | S x' =>
      multiline fl &&
      match Input !! x' with Some ch => IsLineTerminator ch | None => false end
  end.

Definition at_line_end (x : nat) : bool :=
  (x =? length Input) ||
  (multiline fl &&
   match Input !! x with Some ch => IsLineTerminator ch | None => false end).

Fixpoint matcher (r : regex) (x : nat) (c : Continuation) {struct r} : option nat :=
  match r with
  | Empty => c x
  | AssertStart => if at_line_start x then c x else None
  | AssertEnd => if at_line_end x then c x else None
  | Char ch => CharacterSetMatcher (char_matches ch) x c
  | Class ranges => CharacterSetMatcher (class_matches ranges) x c
  | Seq r1 r2 => matcher r1 x (fun y => matcher r2 y c)
  | Repeat r' n =>
      (fix repeat (k : nat) (x : nat) (c : Continuation) {struct k} : option nat :=
         match k with
         | O => c x
         | S k' => matcher r' x (fun y => repeat k' y c)
         end) n x c
  end.

(** The search loop of [RegExpBuiltinExec]: try the start index [i],
    and unless the expression is sticky move on to the next one;
    [n] counts the start indices that are left, up to the length of the
    input. *)
Fixpoint search (r : regex) (n i : nat) : option nat :=
  match n with
  | O => None
  | S n' =>
      match matcher r i (fun y => Some y) with
      | Some e => Some e
      | None => if sticky fl then None else search r n' (S i)
      end
  end.
End Matcher.

(** [RegExpBuiltinExec(R, S)]: the end index of the match found, and the
    object with its [lastIndex] as the call leaves it. *)
Definition RegExpBuiltinExec (R : t) (S : list ascii) : option nat * t :=
  let stateful := global (flags R) || sticky (flags R) in
  let start := if stateful then lastIndex R else 0 in
  let reset := if stateful then mk (source R) (flags R) 0 else R in
  if length S <? start then (None, reset)
  else
    match search (flags R) S (source R) (Datatypes.S (length S - start)) start with
    | Some e => (Some e, if stateful then mk (source R) (flags R) e else R)
    | None => (None, reset)
    end.

(** [RegExp.prototype.test] applied to a string. *)
Definition test (R : t) (S : string) : bool * t :=
  match RegExpBuiltinExec R (list_ascii_of_string S) with
  | (Some _, R') => (true, R')
  | (None, R') => (false, R')
  end.

(** Evaluation of a regular expression literal. *)
Definition literal (r : regex) (fl : Flags) : t := mk r fl 0.

Definition no_flags : Flags := mkFlags false false false false.

Fixpoint seq (rs : list regex) : regex :=
  match rs with
  | [] => Empty
  | [r] => r
  | r :: rs' => Seq r (seq rs')
  end.

End RegExp.

(** ** Values and objects *)

(** Objects are known by reference: the intrinsics of the realm by name,
    everything else (the model classes an ORM exports, for instance) by
    address. *)
Inductive objref : Type :=
| Intrinsic (name : string)
| Ref (addr : positive).

Inductive value : Type :=
| VUndefined
| VNull
| VBoolean (b : bool)
| VNumber (n : Z)
| VString (s : string)
| VObject (o : objref).

Global Instance objref_eq_dec : EqDecision objref.
Proof. solve_decision. Defined.
Global Instance value_eq_dec : EqDecision value.
Proof. solve_decision. Defined.

Definition ToBoolean (v : value) : bool :=
  match v with
  | VUndefined | VNull => false
  | VBoolean b => b
  | VNumber n => negb (n =? 0)%Z
  | VString s => negb (bool_decide (s = ""))
  | VObject _ => true
  end.

(** The properties of [%Object.prototype%] as an ordinary object sees them
    (the [__proto__] accessor read on an object that inherits from it
    directly). *)
Definition Object_prototype : gmap string value :=
  list_to_map
    [("constructor", VObject (Intrinsic "Object"));
     ("hasOwnProperty", VObject (Intrinsic "Object.prototype.hasOwnProperty"));
     ("isPrototypeOf", VObject (Intrinsic "Object.prototype.isPrototypeOf"));
     ("propertyIsEnumerable", VObject (Intrinsic "Object.prototype.propertyIsEnumerable"));
     ("toLocaleString", VObject (Intrinsic "Object.prototype.toLocaleString"));
     ("toString", VObject (Intrinsic "Object.prototype.toString"));
     ("valueOf", VObject (Intrinsic "Object.prototype.valueOf"));
     ("__proto__", VObject (Intrinsic "Object.prototype"));
     ("__defineGetter__", VObject (Intrinsic "Object.prototype.__defineGetter__"));
     ("__defineSetter__", VObject (Intrinsic "Object.prototype.__defineSetter__"));
     ("__lookupGetter__", VObject (Intrinsic "Object.prototype.__lookupGetter__"));
     ("__lookupSetter__", VObject (Intrinsic "Object.prototype.__lookupSetter__"))].

(** [O[P]] on an ordinary object given by its own data properties, whose
    prototype is [%Object.prototype%]: the own property if there is one,
    the inherited one otherwise, [undefined] when neither exists. *)
Definition Get (O : gmap string value) (P : string) : value :=
  match O !! P with
  | Some v => v
  | None => default VUndefined (Object_prototype !! P)
  end.

(** An object literal defines its properties from left to right. *)
Definition ObjectLiteral (props : list (string * value)) : gmap string value :=
  fold_left (fun O kv => <[kv.1 := kv.2]> O) props ∅.

(** ** Data model *)

Module IdentifierType.
Record t : Type := mk {
  id : Z;
  entityType : string;
  label : string
}.
Global Instance eq_dec : EqDecision t.
Proof. solve_decision. Defined.
End IdentifierType.

Module Identifier.
Record t : Type := mk {
  type : IdentifierType.t;
  value : string
}.
End Identifier.

Module IdentifierSet.
Record t : Type := mk {
  identifiers : list Identifier.t
}.
End IdentifierSet.

Module Alias.
Record t : Type := mk {
  name : string
}.
End Alias.

(** An entity as the helpers receive it; [None] is a property that is not
    there. *)
Module Entity.
Record t : Type := mk {
  type : option string;
  bbid : option string;
  defaultAlias : option Alias.t;
  identifierSet : option IdentifierSet.t
}.
End Entity.

(** ** Array and Set built-ins *)

(** [Array.prototype.filter]: walk the indices [k = 0 .. len-1] and append
    the elements the callback accepts to a fresh array. *)
Section ArrayFilter.
Context {A : Type}.
Variable callbackfn : A → bool.
Variable O : list A.

Fixpoint filter_loop (n k : nat) (acc : list A) : list A :=
  match n with
  | 0 => acc
  | S n' =>
      match O !! k with
      | Some kValue =>
          filter_loop n' (S k) (if callbackfn kValue then acc ++ [kValue] else acc)
      | None => filter_loop n' (S k) acc
      end
  end.

Definition Array_filter : list A := filter_loop (length O) 0 [].
End ArrayFilter.

Definition Set_add (s : gset Z) (v : Z) : gset Z := {[ v ]} ∪ s.
Definition Set_has (s : gset Z) (v : Z) : bool := bool_decide (v ∈ s).

(** [a === b] for a string and a value that is a string or [undefined]. *)
Definition strict_eq (a : string) (b : option string) : bool :=
  bool_decide (Some a = b).

(** ** The helpers of [utils] *)

Definition getEntityLink {builtins : StringBuiltins} (entity : Entity.t)
  : completion string :=
  match Entity.type entity with
  | None => Throw TypeError
  | Some type =>
      Return (TemplateLiteral ["/"; "/"; ""]
                [toLowerCase type; ToString (Entity.bbid entity)])
  end.

Definition getEntityModels (orm : gmap string value) : gmap string value :=
  let Creator := Get orm "Creator" in
  let Edition := Get orm "Edition" in
  let Publication := Get orm "Publication" in
  let Publisher := Get orm "Publisher" in
  let Work := Get orm "Work" in
  ObjectLiteral
    [("Creator", Creator); ("Edition", Edition); ("Publication", Publication);
     ("Publisher", Publisher); ("Work", Work)].

Definition getImportModels (orm : gmap string value) : gmap string value :=
  let CreatorImport := Get orm "CreatorImport" in
  let EditionImport := Get orm "EditionImport" in
  let PublicationImport := Get orm "PublicationImport" in
  let PublisherImport := Get orm "PublisherImport" in
  let WorkImport := Get orm "WorkImport" in
  ObjectLiteral
    [("CreatorImport", CreatorImport); ("EditionImport", EditionImport);
     ("PublicationImport", PublicationImport);
     ("PublisherImport", PublisherImport); ("WorkImport", WorkImport)].

(** [entityType] is a string, or [undefined] when the caller passes a
    property that is not there. *)
Definition filterIdentifierTypesByEntityType
    (identifierTypes : list IdentifierType.t) (entityType : option string)
  : list IdentifierType.t :=
  Array_filter
    (fun type => strict_eq (IdentifierType.entityType type) entityType)
    identifierTypes.

Definition filterIdentifierTypesByEntity
    (identifierTypes : list IdentifierType.t) (entity : Entity.t)
  : list IdentifierType.t :=
  let typesOnEntity : gset Z := ∅ in
  match Entity.identifierSet entity with
  | None => filterIdentifierTypesByEntityType identifierTypes (Entity.type entity)
  | Some identifierSet =>
      if length (IdentifierSet.identifiers identifierSet) <? 1
      then filterIdentifierTypesByEntityType identifierTypes (Entity.type entity)
      else
        let typesOnEntity :=
          fold_left
            (fun s identifier =>
               Set_add s (IdentifierType.id (Identifier.type identifier)))
            (IdentifierSet.identifiers identifierSet) typesOnEntity in
        Array_filter
          (fun type =>
             strict_eq (IdentifierType.entityType type) (Entity.type entity)
             || Set_has typesOnEntity (IdentifierType.id type))
          identifierTypes
  end.

Definition getEntityModelByType (orm : gmap string value) (type : string)
  : completion value :=
  let entityModels := getEntityModels orm in
  if negb (ToBoolean (Get entityModels type))
  then Throw (Error (TemplateLiteral ["Unrecognized entity type: '"; "'"] [type]))
  else Return (Get entityModels type).

Definition getImportModelByType (orm : gmap string value) (type : string)
  : completion value :=
  let importModels := getImportModels orm in
  if negb (ToBoolean (Get importModels type))
  then Throw (Error "Unrecognized import type")
  else Return (Get importModels type).

Definition hex : RegExp.regex :=
  RegExp.Class [("0", "9"); ("a", "f")]%char.

Definition dash : RegExp.regex := RegExp.Char "-"%char.

(** The object the module binds to [_bbidRegex] when it is loaded. *)
Definition _bbidRegex : RegExp.t :=
  RegExp.literal
    (RegExp.seq
       [RegExp.AssertStart;
        RegExp.Repeat hex 8; dash; RegExp.Repeat hex 4; dash;
        RegExp.Repeat hex 4; dash; RegExp.Repeat hex 4; dash;
        RegExp.Repeat hex 12;
        RegExp.AssertEnd])
    RegExp.no_flags.

(** [isValidBBID bbid R] runs the function while the object bound to
    [_bbidRegex] is [R]; it gives the completion of the call and the object
    as the call leaves it. *)
Definition isValidBBID (bbid : string) (R : RegExp.t) : completion bool * RegExp.t :=
  let (b, R') := RegExp.test R bbid in
  (Return b, R').

(** The argument [createEntityPageTitle] builds for its template. *)
Record NameFields : Type := mkNameFields { name : string }.

Definition createEntityPageTitle
    (entity : option Entity.t) (titleForUnnamed : string)
    (templateForNamed : NameFields → completion string)
  : completion string :=
  let title := Return titleForUnnamed in
  let title :=
    match entity with
    | None => title
    | Some e =>
        match Entity.defaultAlias e with
        | None => title
        | Some alias =>
            if ToBoolean (VString (Alias.name alias))
            then templateForNamed {| name := Alias.name alias |}
            else title
        end
    end in
  title.

(** ** The entity deletion form *)

Module EntityDeletionForm.

Record State : Type := mkState {
  error : option string;
  waiting : bool
}.

(** A component instance: its props, its state and the two fields
    [render] assigns. *)
Record t : Type := mk {
  entity : Entity.t;
  state : State;
  entityUrl : option string;
  deleteUrl : option string
}.

(** The parts of the rendered tree that depend on props and state. *)
Record View : Type := mkView {
  errorComponent : option string;
  loadingComponent : bool;
  cancelHref : string;
  entityType : option string;
  entityName : string
}.

Definition constructor (props_entity : Entity.t) : t :=
  mk props_entity (mkState None false) None None.

Definition render {builtins : StringBuiltins} (this : t)
  : completion (t * View) :=
  let entity := entity this in
  entityUrl ←
    match Entity.type entity with
    | None => Throw TypeError
    | Some type =>
        Return (TemplateLiteral ["/"; "/"; ""]
                  [toLowerCase type; ToString (Entity.bbid entity)])
    end;
  let deleteUrl := TemplateLiteral [""; "/delete/handler"] [entityUrl] in
  let this := mk entity (state this) (Some entityUrl) (Some deleteUrl) in
  let errorComponent :=
    match error (state this) with
    | Some message => if ToBoolean (VString message) then Some message else None
    | None => None
    end in
  let entityName :=
    match Entity.defaultAlias entity with
    | Some alias => Alias.name alias
    | None => "(unnamed)"
    end in
  Return (this,
          mkView errorComponent (waiting (state this)) entityUrl
                 (Entity.type entity) entityName).

(** The synchronous part of [handleSubmit]: the state it sets and the URL
    it posts to. *)
Definition handleSubmit (this : t) : t * option string :=
  (mk (entity this) (mkState None true) (entityUrl this) (deleteUrl this),
   deleteUrl this).

(** The rejection handler of the request. *)
Definition handleSubmit_catch (this : t) (res_body_error : option string) : t :=
  mk (entity this) (mkState res_body_error false) (entityUrl this) (deleteUrl this).

End EntityDeletionForm.

(** ** Specification vocabulary *)

(** *** Words of a pattern *)

Module Words.
Import RegExp.

(** Patterns without assertions; in this syntax each of them matches words
    of one length only. *)
Fixpoint simple (r : regex) : bool :=
  match r with
  | AssertStart | AssertEnd => false
  | Empty | Char _ | Class _ => true
  | Seq r1 r2 => simple r1 && simple r2
  | Repeat r' _ => simple r'
  end.

Fixpoint width (r : regex) : nat :=
  match r with
  | Empty | AssertStart | AssertEnd => 0
  | Char _ | Class _ => 1
  | Seq r1 r2 => width r1 + width r2
  | Repeat r' n => n * width r'
  end.

(** Whether the whole word [w] is a word of the pattern [r]. *)
Fixpoint accepts (r : regex) (w : list ascii) : bool :=
  match r with
  | Empty => bool_decide (w = [])
  | AssertStart | AssertEnd => false
  | Char c => bool_decide (w = [c])
  | Class ranges =>
      match w with
      | [ch] => in_ranges ranges ch
      | _ => false
      end
  | Seq r1 r2 => accepts r1 (take (width r1) w) && accepts r2 (drop (width r1) w)
  | Repeat r' n =>
      (fix rep (k : nat) (w : list ascii) {struct k} : bool :=
         match k with
         | O => bool_decide (w = [])
         | S k' => accepts r' (take (width r') w) && rep k' (drop (width r') w)
         end) n w
  end.
End Words.

(** *** The BBID format, in the words of the specification *)

Definition hexdigits : list ascii := list_ascii_of_string "0123456789abcdef".

(** [n] lowercase hexadecimal digits. *)
Definition hex_group (n : nat) (w : string) : Prop :=
  String.length w = n ∧ Forall (λ ch, ch ∈ hexdigits) (list_ascii_of_string w).

(** 8 hex, dash, 4 hex, dash, 4 hex, dash, 4 hex, dash, 12 hex. *)
Definition BBIDPattern (s : string) : Prop :=
  ∃ a b c d e : string,
    s = a +:+ "-" +:+ b +:+ "-" +:+ c +:+ "-" +:+ d +:+ "-" +:+ e
    ∧ hex_group 8 a ∧ hex_group 4 b ∧ hex_group 4 c ∧ hex_group 4 d
    ∧ hex_group 12 e.

(** *** Registries *)

Definition entityKinds : list string :=
  ["Creator"; "Edition"; "Publication"; "Publisher"; "Work"].

Definition importKinds : list string :=
  ["CreatorImport"; "EditionImport"; "PublicationImport"; "PublisherImport";
   "WorkImport"].

(** An ORM handle exposes a model (an object) under each of the given
    names. *)
Definition exposes (orm : gmap string value) (kinds : list string) : Prop :=
  ∀ k, k ∈ kinds → ∃ o, orm !! k = Some (VObject o).

(** *** Identifier types of an entity *)

Definition identifiers_of (entity : Entity.t) : list Identifier.t :=
  match Entity.identifierSet entity with
  | None => []
  | Some identifierSet => IdentifierSet.identifiers identifierSet
  end.

(** The identifier-type ids attached to the entity's existing identifiers. *)
Definition type_ids_on (entity : Entity.t) : list Z :=
  (λ identifier, IdentifierType.id (Identifier.type identifier))
    <$> identifiers_of entity.

(** The type belongs to the entity's kind, or is already in use on it. *)
Definition applies_to (entity : Entity.t) (type : IdentifierType.t) : Prop :=
  Some (IdentifierType.entityType type) = Entity.type entity
  ∨ IdentifierType.id type ∈ type_ids_on entity.

Global Instance applies_to_dec entity type : Decision (applies_to entity type).
Proof. unfold applies_to. apply _. Defined.

(** *** Display names *)

(** The entity is there and its default alias has a name that is not
    empty. *)
Definition display_name (entity : option Entity.t) : option string :=
  e ← entity;
  alias ← Entity.defaultAlias e;
  if decide (Alias.name alias = "") then None else Some (Alias.name alias).

(** The entity has a type and a BBID. *)
Definition populated (entity : Entity.t) : Prop :=
  is_Some (Entity.type entity) ∧ is_Some (Entity.bbid entity).

(** The part of the BBID pattern between [^] and [$]. *)
Definition bbid_body : RegExp.regex :=
  RegExp.seq
    [RegExp.Repeat hex 8; dash; RegExp.Repeat hex 4; dash;
     RegExp.Repeat hex 4; dash; RegExp.Repeat hex 4; dash;
     RegExp.Repeat hex 12].

(** ** More of [utils] *)

(** *** The [template] tag *)

(** An element of the array [template] joins: a string of the literal, or
    [undefined] when the index is past its end. *)
Definition string_at (strings : list string) (i : nat) : value :=
  match strings !! i with
  | Some s => VString s
  | None => VUndefined
  end.

(** [Array.prototype.join]: [undefined] and [null] elements give the empty
    string, strings are taken as they are; [ToString_other] converts what
    is left (numbers, booleans, objects). *)
Section Join.
Variable ToString_other : value → string.

Definition join_element (v : value) : string :=
  match v with
  | VUndefined | VNull => ""
  | VString s => s
  | _ => ToString_other v
  end.

Fixpoint Array_join (sep : string) (elements : list value) : string :=
  match elements with
  | [] => ""
  | [v] => join_element v
  | v :: elements' => join_element v +:+ sep +:+ Array_join sep elements'
  end.

(** [template(strings, ...keys)(values)]: [values] is an ordinary object
    given by its own properties. *)
Definition template (strings keys : list string) (values : gmap string value)
  : string :=
  let result := [string_at strings 0] in
  let result :=
    fold_left
      (fun result ik => result ++ [Get values ik.2; string_at strings (ik.1 + 1)])
      (imap pair keys) result in
  Array_join "" result.
End Join.

(** The object [createEntityPageTitle] passes to its template, as an
    object literal. *)
Definition NameFields_object (t : NameFields) : gmap string value :=
  ObjectLiteral [("name", VString (name t))].

(** *** [truncateTables] *)

(** The database is a state [DB]; [raw] is [Bookshelf.knex.raw], which runs
    one statement and resolves or rejects. *)
Section Truncate.
Context {DB : Type}.
Variable raw : string → DB → completion unit * DB.

(** [Promise.each]: the iterator runs on the items one after the other and
    the first rejection ends the iteration. *)
Fixpoint Promise_each {A} (items : list A)
    (iterator : A → DB → completion unit * DB) (db : DB)
  : completion unit * DB :=
  match items with
  | [] => (Return (), db)
  | item :: items' =>
      match iterator item db with
      | (Return _, db') => Promise_each items' iterator db'
      | (Throw e, db') => (Throw e, db')
      end
  end.

Definition truncateTables (tables : list string) (db : DB)
  : completion (list string) * DB :=
  match
    Promise_each tables
      (fun table => raw (TemplateLiteral ["TRUNCATE "; " CASCADE"] [table])) db
  with
  | (Return _, db') => (Return tables, db')
  | (Throw e, db') => (Throw e, db')
  end.
End Truncate.

(** ** The name section actions *)

Module Actions.

Definition UPDATE_DISAMBIGUATION_FIELD : string := "UPDATE_DISAMBIGUATION_FIELD".
Definition UPDATE_LANGUAGE_FIELD : string := "UPDATE_LANGUAGE_FIELD".
Definition UPDATE_NAME_FIELD : string := "UPDATE_NAME_FIELD".
Definition UPDATE_SORT_NAME_FIELD : string := "UPDATE_SORT_NAME_FIELD".
Definition UPDATE_WARN_IF_EXISTS : string := "UPDATE_WARN_IF_EXISTS".

(** What the creators put in [payload]: a string, a number that may be
    absent, or a boolean. *)
Inductive Payload : Type :=
| PString (s : string)
| PNumber (n : option Z)
| PBoolean (b : bool).

Record Meta : Type := mkMeta { debounce : string }.

Record Action : Type := mkAction {
  meta : option Meta;
  payload : Payload;
  type : string
}.

Definition debouncedUpdateNameField (newName : string) : Action :=
  {| meta := Some (mkMeta "keystroke");
     payload := PString newName;
     type := UPDATE_NAME_FIELD |}.

Definition debouncedUpdateSortNameField (newSortName : string) : Action :=
  {| meta := Some (mkMeta "keystroke");
     payload := PString newSortName;
     type := UPDATE_SORT_NAME_FIELD |}.

Definition updateLanguageField (newLanguageId : option Z) : Action :=
  {| meta := None;
     payload := PNumber newLanguageId;
     type := UPDATE_LANGUAGE_FIELD |}.

Definition debouncedUpdateDisambiguationField (newDisambiguation : string)
  : Action :=
  {| meta := Some (mkMeta "keystroke");
     payload := PString newDisambiguation;
     type := UPDATE_DISAMBIGUATION_FIELD |}.

(** A GET request: the path and the query parameters. *)
Record Request : Type := mkRequest {
  url : string;
  query : list (string * string)
}.

(** The thunk of [handleNameChange], with [dispatch] appending to the list
    of dispatched actions.  Its synchronous part dispatches once and sends
    the request. *)
Definition handleNameChange (newName entityType : string)
    (dispatched : list Action) : list Action * Request :=
  let dispatched :=
    dispatched ++ [{| meta := Some (mkMeta "keystroke");
                      payload := PString newName;
                      type := UPDATE_NAME_FIELD |}] in
  (dispatched,
   mkRequest "/search/exists" [("collection", entityType); ("q", newName)]).

(** The fulfilment handler: [res.text] is the body of the response, if
    any. *)
Definition handleNameChange_then (res_text : option string)
    (dispatched : list Action) : list Action :=
  dispatched ++ [{| meta := Some (mkMeta "keystroke");
                    payload := PBoolean (strict_eq "true" res_text);
                    type := UPDATE_WARN_IF_EXISTS |}].

(** The rejection handler returns the error and dispatches nothing. *)
Definition handleNameChange_catch (error : exn) (dispatched : list Action)
  : list Action * exn :=
  (dispatched, error).

End Actions.

(** *** Vocabulary for the further properties *)

(** The string has no ["/"] in it. *)
Definition slash_free (s : string) : Prop :=
  "/"%char ∉ list_ascii_of_string s.

(** An ORM handle that exports the ten models, as the application's does. *)
Definition sample_orm : gmap string value :=
  list_to_map
    [("Creator", VObject (Ref 1)); ("Edition", VObject (Ref 2));
     ("Publication", VObject (Ref 3)); ("Publisher", VObject (Ref 4));
     ("Work", VObject (Ref 5)); ("CreatorImport", VObject (Ref 6));
     ("EditionImport", VObject (Ref 7)); ("PublicationImport", VObject (Ref 8));
     ("PublisherImport", VObject (Ref 9)); ("WorkImport", VObject (Ref 10));
     ("Editor", VObject (Ref 11))].

(** * Properties *)

(** ** Strings *)

Lemma append_empty_r (s : string) : s +:+ "" = s.
Proof.
  induction s as [|c s IH]; [done|].
  change (String c (s +:+ "") = String c s). by rewrite IH.
Qed.

Lemma list_ascii_of_string_app (s1 s2 : string) :
  list_ascii_of_string (s1 +:+ s2)
  = list_ascii_of_string s1 ++ list_ascii_of_string s2.
Proof.
  induction s1 as [|c s1 IH]; [done|].
  change (c :: list_ascii_of_string (s1 +:+ s2)
          = c :: (list_ascii_of_string s1 ++ list_ascii_of_string s2)).
  by rewrite IH.
Qed.

Lemma length_list_ascii_of_string (s : string) :
  length (list_ascii_of_string s) = String.length s.
Proof. induction s as [|c s IH]; [done|]. cbn. by rewrite IH. Qed.

(** ** The matcher on patterns without assertions *)

Section MatcherFacts.
Import RegExp Words.
Variable Input : list ascii.

Local Abbreviation matcher := (RegExp.matcher no_flags Input).

Lemma accepts_length r w : accepts r w = true → length w = width r.
Proof.
  revert w. induction r as [| | |c|ranges|r1 IH1 r2 IH2|r IH n]; intros w; cbn.
  - by intros ->%bool_decide_eq_true.
  - done.
  - done.
  - by intros ->%bool_decide_eq_true.
  - by destruct w as [|? [|]].
  - intros [H1 H2]%andb_true_iff.
    apply IH1 in H1. apply IH2 in H2.
    rewrite length_take in H1. rewrite length_drop in H2. lia.
  - revert w. induction n as [|n IHn]; intros w; cbn.
    + by intros ->%bool_decide_eq_true.
    + intros [H1 H2]%andb_true_iff.
      apply IH in H1. apply IHn in H2.
      rewrite length_take in H1. rewrite length_drop in H2. lia.
Qed.

Lemma slice_1 x :
  take 1 (drop x Input) = match Input !! x with Some ch => [ch] | None => [] end.
Proof.
  destruct (Input !! x) as [ch|] eqn:E.
  - apply take_drop_middle in E as Hsplit.
    rewrite <- Hsplit at 1.
    assert (length (take x Input) = x) as Hlen.
    { rewrite length_take. apply lookup_lt_Some in E. lia. }
    rewrite <- Hlen at 1. by rewrite drop_app_length.
  - apply lookup_ge_None in E. by rewrite drop_ge.
Qed.

Lemma matcher_simple r :
  simple r = true →
  ∀ x c, matcher r x c
         = if accepts r (take (width r) (drop x Input)) then c (x + width r) else None.
Proof.
  induction r as [| | |ch|ranges|r1 IH1 r2 IH2|r IH n]; intros Hs x c; cbn in Hs |- *;
    try done.
  - by rewrite Nat.add_0_r.
  - unfold CharacterSetMatcher, char_matches. cbn.
    rewrite slice_1, Nat.add_1_r.
    destruct (Input !! x) as [a|]; [|done].
    destruct (decide (ch = a)) as [->|Hne].
    + by rewrite !bool_decide_eq_true_2.
    + rewrite !bool_decide_eq_false_2; [done|congruence|done].
  - unfold CharacterSetMatcher, class_matches. cbn.
    rewrite slice_1, Nat.add_1_r.
    by destruct (Input !! x) as [a|].
  - apply andb_true_iff in Hs as [Hs1 Hs2].
    rewrite (IH1 Hs1).
    rewrite take_take, Nat.min_l by lia.
    rewrite <- take_drop_commute, drop_drop.
    destruct (accepts r1 _); [|done]. cbn.
    rewrite (IH2 Hs2). by rewrite Nat.add_assoc.
  - revert x c. induction n as [|n IHn]; intros x c; cbn.
    + by rewrite Nat.add_0_r.
    + rewrite (IH Hs).
      rewrite take_take, Nat.min_l by lia.
      rewrite <- take_drop_commute, drop_drop.
      destruct (accepts r _); [|done]. cbn.
      rewrite IHn. cbn. by rewrite Nat.add_assoc.
Qed.

Lemma accepts_Seq r1 r2 w :
  accepts (Seq r1 r2) w = true
  ↔ ∃ w1 w2, w = w1 ++ w2 ∧ accepts r1 w1 = true ∧ accepts r2 w2 = true.
Proof.
  cbn. rewrite andb_true_iff. split.
  - intros [H1 H2]. exists (take (width r1) w), (drop (width r1) w).
    by rewrite take_drop.
  - intros (w1 & w2 & -> & H1 & H2).
    apply accepts_length in H1 as Hlen. rewrite <- Hlen.
    by rewrite take_app_length, drop_app_length.
Qed.

Lemma accepts_Char c w : accepts (Char c) w = true ↔ w = [c].
Proof. cbn. apply bool_decide_eq_true. Qed.

Lemma accepts_Repeat_Class ranges n w :
  accepts (Repeat (Class ranges) n) w = true
  ↔ length w = n ∧ Forall (λ ch, in_ranges ranges ch = true) w.
Proof.
  revert w. induction n as [|n IH]; intros w.
  - cbn. rewrite bool_decide_eq_true. split.
    + by intros ->.
    + by intros [->%nil_length_inv _].
  - change (accepts (Repeat (Class ranges) (S n)) w)
      with (accepts (Class ranges) (take 1 w)
            && accepts (Repeat (Class ranges) n) (drop 1 w)).
    rewrite andb_true_iff, IH. destruct w as [|ch w]; cbn.
    + split; [by intros [? _]|by intros [? _]].
    + rewrite take_0, drop_0, Forall_cons.
      split; [intros [? [? ?]]|intros [? [? ?]]]; auto with lia.
Qed.

(** No match starts after the first index when the pattern opens with
    [^] and the expression is not multiline. *)
Lemma search_after_start r n i :
  search no_flags Input (Seq AssertStart r) n (S i) = None.
Proof. revert i. induction n as [|n IH]; intros i; [done|]. cbn. apply IH. Qed.

Lemma search_anchored body n :
  simple body = true →
  search no_flags Input (Seq AssertStart (Seq body AssertEnd)) (S n) 0
  = if accepts body Input then Some (length Input) else None.
Proof.
  intros Hs. cbn -[accepts]. rewrite (matcher_simple body Hs). cbn -[accepts].
  unfold at_line_end. cbn -[accepts]. rewrite drop_0, orb_false_r.
  destruct (accepts body Input) eqn:Hacc.
  - apply accepts_length in Hacc as Hlen.
    rewrite <- Hlen, firstn_all, Hacc, Nat.eqb_refl. done.
  - destruct (accepts body (take (width body) Input)) eqn:Hacc'.
    + apply accepts_length in Hacc' as Hlen.
      destruct (Nat.eqb_spec (width body) (length Input)) as [Heq|Hne].
      * rewrite Heq, firstn_all in Hacc'. congruence.
      * apply (search_after_start (Seq body AssertEnd)).
    + apply (search_after_start (Seq body AssertEnd)).
Qed.

End MatcherFacts.

(** ** [test] on a fully anchored pattern *)

Section Anchored.
Import RegExp Words.

Lemma search_ext Input r r' :
  (∀ x c, matcher no_flags Input r x c = matcher no_flags Input r' x c) →
  ∀ n i, search no_flags Input r n i = search no_flags Input r' n i.
Proof.
  intros Hext n. induction n as [|n IH]; intros i; [done|].
  cbn. by rewrite Hext, IH.
Qed.

(** A pattern [^body$] without flags accepts exactly the words of [body],
    whatever [lastIndex] holds, and leaves the object as it was. *)
Lemma test_anchored r body idx s :
  simple body = true →
  (∀ Input x c,
      matcher no_flags Input r x c
      = matcher no_flags Input (Seq AssertStart (Seq body AssertEnd)) x c) →
  test (mk r no_flags idx) s
  = (accepts body (list_ascii_of_string s), mk r no_flags idx).
Proof.
  intros Hs Hext. unfold test, RegExpBuiltinExec. cbn -[search accepts].
  rewrite (search_ext _ _ _ (Hext _)), search_anchored by done.
  by destruct (accepts body _).
Qed.
End Anchored.

(** ** BBID validation *)

Section BBID.
Import RegExp Words.

Lemma string_of_list_ascii_app (l1 l2 : list ascii) :
  string_of_list_ascii (l1 ++ l2)
  = string_of_list_ascii l1 +:+ string_of_list_ascii l2.
Proof.
  induction l1 as [|c l1 IH]; [done|].
  change (String c (string_of_list_ascii (l1 ++ l2))
          = String c (string_of_list_ascii l1 +:+ string_of_list_ascii l2)).
  by rewrite IH.
Qed.

Lemma in_ranges_hex ch :
  in_ranges [("0", "9"); ("a", "f")]%char ch = bool_decide (ch ∈ hexdigits).
Proof. destruct ch as [[] [] [] [] [] [] [] []]; vm_compute; reflexivity. Qed.

Lemma accepts_hex n (w : string) :
  accepts (Repeat hex n) (list_ascii_of_string w) = true ↔ hex_group n w.
Proof.
  unfold hex, hex_group. rewrite accepts_Repeat_Class.
  rewrite length_list_ascii_of_string.
  apply and_iff_compat_l, Forall_proper; [|done].
  intros ch. by rewrite in_ranges_hex, bool_decide_eq_true.
Qed.

Lemma accepts_dash w : accepts dash w = true ↔ w = ["-"%char].
Proof. apply accepts_Char. Qed.

Lemma accepts_bbid_body_list (w : list ascii) :
  accepts bbid_body w = true
  ↔ ∃ a b c d e : list ascii,
      w = a ++ ["-"%char] ++ b ++ ["-"%char] ++ c ++ ["-"%char] ++ d
            ++ ["-"%char] ++ e
      ∧ accepts (Repeat hex 8) a = true ∧ accepts (Repeat hex 4) b = true
      ∧ accepts (Repeat hex 4) c = true ∧ accepts (Repeat hex 4) d = true
      ∧ accepts (Repeat hex 12) e = true.
Proof.
  unfold bbid_body. cbn [seq]. split.
  - intros (a & ? & -> & Ha & (? & ? & -> & ->%accepts_dash
      & (b & ? & -> & Hb & (? & ? & -> & ->%accepts_dash
      & (c & ? & -> & Hc & (? & ? & -> & ->%accepts_dash
      & (d & ? & -> & Hd & (? & e & -> & ->%accepts_dash & He)%accepts_Seq
        )%accepts_Seq)%accepts_Seq)%accepts_Seq)%accepts_Seq
        )%accepts_Seq)%accepts_Seq)%accepts_Seq.
    by exists a, b, c, d, e.
  - intros (a & b & c & d & e & -> & Ha & Hb & Hc & Hd & He).
    repeat (apply accepts_Seq; eexists _, _; split_and!;
            [done|done || by apply accepts_dash|]).
    done.
Qed.

Lemma accepts_bbid_body (s : string) :
  accepts bbid_body (list_ascii_of_string s) = true ↔ BBIDPattern s.
Proof.
  rewrite accepts_bbid_body_list. unfold BBIDPattern. split.
  - intros (a & b & c & d & e & Hs & Ha & Hb & Hc & Hd & He).
    exists (string_of_list_ascii a), (string_of_list_ascii b),
      (string_of_list_ascii c), (string_of_list_ascii d),
      (string_of_list_ascii e).
    rewrite <- !accepts_hex, !list_ascii_of_string_of_list_ascii.
    split_and!; try done.
    rewrite <- (string_of_list_ascii_of_string s), Hs.
    by rewrite !string_of_list_ascii_app.
  - intros (a & b & c & d & e & -> & Ha & Hb & Hc & Hd & He).
    rewrite <- accepts_hex in Ha, Hb, Hc, Hd, He.
    exists (list_ascii_of_string a), (list_ascii_of_string b),
      (list_ascii_of_string c), (list_ascii_of_string d),
      (list_ascii_of_string e).
    split_and!; [|done..].
    by rewrite !list_ascii_of_string_app.
Qed.

Lemma isValidBBID_accepts (bbid : string) idx :
  let R := mk (source _bbidRegex) (flags _bbidRegex) idx in
  isValidBBID bbid R
  = (Return (accepts bbid_body (list_ascii_of_string bbid)), R).
Proof.
  intros R. unfold isValidBBID, R.
  change (flags _bbidRegex) with no_flags.
  by rewrite (test_anchored _ bbid_body).
Qed.
End BBID.

(** C1. For every string [s], [isValidBBID s] is [true] exactly when [s] is
    made of 8 lowercase hexadecimal digits, a dash, 4 digits, a dash, 4
    digits, a dash, 4 digits, a dash and 12 digits; for any other string it
    is [false].  The call leaves the regular expression object as it found
    it. *)
Theorem isValidBBID_iff_BBIDPattern (s : string) :
  (isValidBBID s _bbidRegex = (Return true, _bbidRegex) ↔ BBIDPattern s)
  ∧ (¬ BBIDPattern s → isValidBBID s _bbidRegex = (Return false, _bbidRegex)).
Proof.
  pose proof (isValidBBID_accepts s 0) as H. cbv zeta in H.
  change (RegExp.mk _ _ 0) with _bbidRegex in H. rewrite H.
  rewrite <- accepts_bbid_body.
  destruct (Words.accepts bbid_body _); split; done.
Qed.

(** C8. [isValidBBID] returns a boolean for every string and never throws,
    whatever [lastIndex] the regular expression object holds; an identifier
    that does not have the BBID format gives [false]. *)
Theorem isValidBBID_total (s : string) (idx : nat) :
  let R := RegExp.mk (RegExp.source _bbidRegex) (RegExp.flags _bbidRegex) idx in
  (∃ b : bool, isValidBBID s R = (Return b, R))
  ∧ (∀ e R', isValidBBID s R ≠ (Throw e, R'))
  ∧ (¬ BBIDPattern s → isValidBBID s R = (Return false, R)).
Proof.
  intros R. unfold R. rewrite isValidBBID_accepts. split_and!.
  - by eexists.
  - congruence.
  - rewrite <- accepts_bbid_body. by intros ->%not_true_is_false.
Qed.

(** ** Identifier-type filtering *)

Section ArrayFilterFacts.
Context {A : Type}.
Variable callbackfn : A → bool.

Lemma filter_loop_app (pre suf acc : list A) :
  filter_loop callbackfn (pre ++ suf) (length suf) (length pre) acc
  = acc ++ List.filter callbackfn suf.
Proof.
  revert pre acc. induction suf as [|x suf IH]; intros pre acc; cbn.
  - by rewrite app_nil_r.
  - rewrite list_lookup_middle by done.
    replace (pre ++ x :: suf) with ((pre ++ [x]) ++ suf) by by rewrite <- app_assoc.
    replace (S (length pre)) with (length (pre ++ [x]))
      by (rewrite length_app; cbn; lia).
    rewrite IH. destruct (callbackfn x); [|done].
    by rewrite <- app_assoc.
Qed.

(** The index loop of [Array.prototype.filter] computes the filter of the
    list. *)
Lemma Array_filter_filter (O : list A) :
  Array_filter callbackfn O = List.filter callbackfn O.
Proof. apply (filter_loop_app [] O []). Qed.

Lemma Array_filter_Prop (P : A → Prop) `{!∀ x, Decision (P x)} (O : list A) :
  (∀ x, callbackfn x = bool_decide (P x)) →
  Array_filter callbackfn O = filter P O.
Proof.
  intros Hcb. rewrite Array_filter_filter.
  induction O as [|x O IH]; [done|].
  rewrite filter_cons, <- IH. cbn [List.filter]. rewrite Hcb.
  case_bool_decide; [by rewrite decide_True|by rewrite decide_False].
Qed.
End ArrayFilterFacts.

(** The set built by the [for ... of] loop holds the ids of the identifiers'
    types, on top of what it held before. *)
Lemma typesOnEntity_loop (identifiers : list Identifier.t) (s : gset Z) (v : Z) :
  v ∈ fold_left
        (fun s identifier =>
           Set_add s (IdentifierType.id (Identifier.type identifier)))
        identifiers s
  ↔ v ∈ s
    ∨ v ∈ (λ identifier, IdentifierType.id (Identifier.type identifier))
            <$> identifiers.
Proof.
  revert s. induction identifiers as [|i identifiers IH]; intros s; cbn.
  - rewrite elem_of_nil. tauto.
  - rewrite IH. unfold Set_add.
    rewrite elem_of_union, elem_of_singleton, elem_of_cons. tauto.
Qed.

Lemma filterIdentifierTypesByEntityType_filter
    (identifierTypes : list IdentifierType.t) (entityType : option string) :
  filterIdentifierTypesByEntityType identifierTypes entityType
  = filter (λ type, Some (IdentifierType.entityType type) = entityType)
      identifierTypes.
Proof. unfold filterIdentifierTypesByEntityType. by apply Array_filter_Prop. Qed.

(** Whatever the entity, the result is the filter by [applies_to]. *)
Lemma filterIdentifierTypesByEntity_filter
    (identifierTypes : list IdentifierType.t) (entity : Entity.t) :
  filterIdentifierTypesByEntity identifierTypes entity
  = filter (applies_to entity) identifierTypes.
Proof.
  unfold filterIdentifierTypesByEntity.
  assert (identifiers_of entity = [] →
          filterIdentifierTypesByEntityType identifierTypes (Entity.type entity)
          = filter (applies_to entity) identifierTypes) as Hnone.
  { intros Hnil. rewrite filterIdentifierTypesByEntityType_filter.
    apply list_filter_iff. intros type. unfold applies_to, type_ids_on.
    rewrite Hnil, fmap_nil, elem_of_nil. tauto. }
  destruct (Entity.identifierSet entity) as [identifierSet|] eqn:Hset.
  - destruct (Nat.ltb_spec (length (IdentifierSet.identifiers identifierSet)) 1)
      as [Hlt|Hge].
    + apply Hnone. unfold identifiers_of. rewrite Hset.
      apply nil_length_inv. lia.
    + apply Array_filter_Prop. intros type.
      unfold strict_eq, Set_has. rewrite <- bool_decide_or.
      apply bool_decide_ext. rewrite typesOnEntity_loop.
      unfold applies_to, type_ids_on, identifiers_of. rewrite Hset.
      rewrite elem_of_empty. tauto.
  - apply Hnone. unfold identifiers_of. by rewrite Hset.
Qed.

(** C5. [filterIdentifierTypesByEntityType] returns the elements of the
    input whose [entityType] is the given string, each as often as it occurs
    in the input and in the input order. *)
Theorem filterIdentifierTypesByEntityType_spec
    (identifierTypes : list IdentifierType.t) (entityType : string) :
  let result :=
    filterIdentifierTypesByEntityType identifierTypes (Some entityType) in
  result = filter (λ type, IdentifierType.entityType type = entityType)
             identifierTypes
  ∧ result `sublist_of` identifierTypes
  ∧ ∀ type, type ∈ result
            ↔ type ∈ identifierTypes ∧ IdentifierType.entityType type = entityType.
Proof.
  cbv zeta. rewrite filterIdentifierTypesByEntityType_filter.
  assert (filter (λ type, Some (IdentifierType.entityType type) = Some entityType)
            identifierTypes
          = filter (λ type, IdentifierType.entityType type = entityType)
              identifierTypes) as ->.
  { apply list_filter_iff. intros type. split; congruence. }
  split_and!.
  - done.
  - apply sublist_filter.
  - intros type. rewrite list_elem_of_filter. tauto.
Qed.

(** C3. Without identifiers on the entity, [filterIdentifierTypesByEntity]
    is [filterIdentifierTypesByEntityType] at the entity's type.  Otherwise
    it returns the types of the input whose [entityType] is the entity's
    type or whose id is the id of the type of one of the entity's
    identifiers: in the input order, each as often as in the input, so
    that an input without duplicates gives a result without duplicates. *)
Theorem filterIdentifierTypesByEntity_spec
    (identifierTypes : list IdentifierType.t) (entity : Entity.t) :
  let result := filterIdentifierTypesByEntity identifierTypes entity in
  (identifiers_of entity = [] →
   result = filterIdentifierTypesByEntityType identifierTypes (Entity.type entity))
  ∧ (identifiers_of entity ≠ [] →
     result = filter (applies_to entity) identifierTypes
     ∧ result `sublist_of` identifierTypes
     ∧ (∀ type, type ∈ result
                ↔ type ∈ identifierTypes
                  ∧ (Some (IdentifierType.entityType type) = Entity.type entity
                     ∨ ∃ identifier,
                         identifier ∈ identifiers_of entity
                         ∧ IdentifierType.id type
                           = IdentifierType.id (Identifier.type identifier)))
     ∧ (NoDup identifierTypes → NoDup result)).
Proof.
  cbv zeta. split.
  - intros Hnil. unfold filterIdentifierTypesByEntity, identifiers_of in *.
    destruct (Entity.identifierSet entity) as [identifierSet|]; [|done].
    by rewrite Hnil.
  - intros _. rewrite filterIdentifierTypesByEntity_filter. split_and!.
    + done.
    + apply sublist_filter.
    + intros type. rewrite list_elem_of_filter. unfold applies_to, type_ids_on.
      rewrite list_elem_of_fmap.
      split; [intros [[?|(i & ? & ?)] ?]|intros [? [?|(i & ? & ?)]]]; eauto 6.
    + apply NoDup_filter.
Qed.

(** ** Model lookup by type name *)

Section Registry.
Variable orm : gmap string value.

Lemma ObjectLiteral_snoc props k v :
  ObjectLiteral (props ++ [(k, v)]) = <[k := v]> (ObjectLiteral props).
Proof. unfold ObjectLiteral. by rewrite fold_left_app. Qed.

(** The own properties of the literal: the last definition of a key wins,
    other keys are absent. *)
Lemma ObjectLiteral_lookup_None props k :
  k ∉ props.*1 → ObjectLiteral props !! k = None.
Proof.
  induction props as [|[k' v] props IH] using rev_ind; intros Hk; [done|].
  rewrite fmap_app, elem_of_app in Hk. cbn in Hk.
  rewrite ObjectLiteral_snoc, lookup_insert_ne.
  - apply IH. tauto.
  - intros ->. apply Hk. right. apply list_elem_of_here.
Qed.

Lemma getEntityModels_own type :
  type ∈ entityKinds → getEntityModels orm !! type = Some (Get orm type).
Proof.
  unfold entityKinds. rewrite !elem_of_cons, elem_of_nil.
  intros [->|[->|[->|[->|[->|[]]]]]]; reflexivity.
Qed.

Lemma getEntityModels_other type :
  type ∉ entityKinds → getEntityModels orm !! type = None.
Proof. intros Hout. apply ObjectLiteral_lookup_None. exact Hout. Qed.

Lemma getImportModels_own type :
  type ∈ importKinds → getImportModels orm !! type = Some (Get orm type).
Proof.
  unfold importKinds. rewrite !elem_of_cons, elem_of_nil.
  intros [->|[->|[->|[->|[->|[]]]]]]; reflexivity.
Qed.

Lemma getImportModels_other type :
  type ∉ importKinds → getImportModels orm !! type = None.
Proof. intros Hout. apply ObjectLiteral_lookup_None. exact Hout. Qed.

(** A name of the closed set resolves to the model the ORM exposes. *)
Lemma getEntityModelByType_known type :
  exposes orm entityKinds → type ∈ entityKinds →
  ∃ o, orm !! type = Some (VObject o)
       ∧ getEntityModelByType orm type = Return (VObject o).
Proof.
  intros Horm Hin. destruct (Horm type Hin) as [o Ho]. exists o. split; [done|].
  unfold getEntityModelByType. cbv zeta.
  unfold Get. rewrite (getEntityModels_own type Hin).
  unfold Get. by rewrite Ho.
Qed.

(** A name that is neither in the closed set nor a property of
    [%Object.prototype%] is reported. *)
Lemma getEntityModelByType_unknown type :
  type ∉ entityKinds → Object_prototype !! type = None →
  getEntityModelByType orm type
  = Throw (Error ("Unrecognized entity type: '" +:+ type +:+ "'")).
Proof.
  intros Hout Hproto. unfold getEntityModelByType. cbv zeta.
  unfold Get. by rewrite (getEntityModels_other type Hout), Hproto.
Qed.

(** What is returned is never [undefined], [null] or another falsy
    value. *)
Lemma getEntityModelByType_truthy type v :
  getEntityModelByType orm type = Return v → ToBoolean v = true.
Proof.
  unfold getEntityModelByType. cbv zeta.
  destruct (ToBoolean (Get (getEntityModels orm) type)) eqn:Hb; cbn; [|done].
  by intros [= <-].
Qed.

Lemma getImportModelByType_known type :
  exposes orm importKinds → type ∈ importKinds →
  ∃ o, orm !! type = Some (VObject o)
       ∧ getImportModelByType orm type = Return (VObject o).
Proof.
  intros Horm Hin. destruct (Horm type Hin) as [o Ho]. exists o. split; [done|].
  unfold getImportModelByType. cbv zeta.
  unfold Get. rewrite (getImportModels_own type Hin).
  unfold Get. by rewrite Ho.
Qed.

Lemma getImportModelByType_unknown type :
  type ∉ importKinds → Object_prototype !! type = None →
  getImportModelByType orm type = Throw (Error "Unrecognized import type").
Proof.
  intros Hout Hproto. unfold getImportModelByType. cbv zeta.
  unfold Get. by rewrite (getImportModels_other type Hout), Hproto.
Qed.

Lemma getImportModelByType_truthy type v :
  getImportModelByType orm type = Return v → ToBoolean v = true.
Proof.
  unfold getImportModelByType. cbv zeta.
  destruct (ToBoolean (Get (getImportModels orm) type)) eqn:Hb; cbn; [|done].
  by intros [= <-].
Qed.

(** The two lookups never throw the same error: the messages differ. *)
Lemma registry_errors_distinct type type' e e' :
  getEntityModelByType orm type = Throw e →
  getImportModelByType orm type' = Throw e' →
  e ≠ e'.
Proof.
  unfold getEntityModelByType, getImportModelByType. cbv zeta.
  destruct (negb _); [|done]. destruct (negb _); [|done].
  intros [= <-] [= <-]. cbn. unfold TemplateLiteral.
  intros [=].
Qed.

(** The lookups on every name: a registered name reads the ORM, any other
    name reads [%Object.prototype%]; the value found is returned when it is
    truthy and reported otherwise. *)
Lemma getEntityModelByType_cases type :
  getEntityModelByType orm type
  = let found :=
      if bool_decide (type ∈ entityKinds) then Get orm type
      else default VUndefined (Object_prototype !! type) in
    if ToBoolean found then Return found
    else Throw (Error ("Unrecognized entity type: '" +:+ type +:+ "'")).
Proof.
  unfold getEntityModelByType. cbv zeta. unfold Get at 1 2.
  case_bool_decide as Hin.
  - rewrite (getEntityModels_own type Hin). by destruct (ToBoolean _).
  - rewrite (getEntityModels_other type Hin). by destruct (ToBoolean _).
Qed.

Lemma getImportModelByType_cases type :
  getImportModelByType orm type
  = let found :=
      if bool_decide (type ∈ importKinds) then Get orm type
      else default VUndefined (Object_prototype !! type) in
    if ToBoolean found then Return found
    else Throw (Error "Unrecognized import type").
Proof.
  unfold getImportModelByType. cbv zeta. unfold Get at 1 2.
  case_bool_decide as Hin.
  - rewrite (getImportModels_own type Hin). by destruct (ToBoolean _).
  - rewrite (getImportModels_other type Hin). by destruct (ToBoolean _).
Qed.
End Registry.

(** C2. [toString] is not an entity kind, yet [getEntityModelByType] does
    not throw on it: the lookup in the object literal finds the method
    inherited from [%Object.prototype%] and returns it, for every ORM
    handle.  The documented behaviour (an error for every name that does
    not map to a model) fails on this input. *)
Theorem getEntityModelByType_toString (orm : gmap string value) :
  ("toString" ∉ entityKinds)
  ∧ (getEntityModelByType orm "toString"
     = Return (VObject (Intrinsic "Object.prototype.toString"))).
Proof.
  assert ("toString" ∉ entityKinds) as Hout
    by (apply (bool_decide_unpack _); vm_compute; exact I).
  split; [done|].
  unfold getEntityModelByType. cbv zeta.
  unfold Get. by rewrite getEntityModels_other.
Qed.

(** C4. [constructor] is not an import kind, yet [getImportModelByType]
    does not throw on it: it returns the inherited [Object] constructor, for
    every ORM handle.  The documented behaviour (an error for every name
    that does not map to a model) fails on this input. *)
Theorem getImportModelByType_constructor (orm : gmap string value) :
  ("constructor" ∉ importKinds)
  ∧ (getImportModelByType orm "constructor"
     = Return (VObject (Intrinsic "Object"))).
Proof.
  assert ("constructor" ∉ importKinds) as Hout
    by (apply (bool_decide_unpack _); vm_compute; exact I).
  split; [done|].
  unfold getImportModelByType. cbv zeta.
  unfold Get. by rewrite getImportModels_other.
Qed.

(** ** Entity links and page titles *)

Lemma TemplateLiteral_link (a b : string) :
  TemplateLiteral ["/"; "/"; ""] [a; b] = "/" +:+ a +:+ "/" +:+ b.
Proof. cbn. by rewrite append_empty_r. Qed.

(** Without a [type] the link cannot be built; a missing [bbid] is printed
    as [undefined]. *)
Lemma getEntityLink_cases `{StringBuiltins} (entity : Entity.t) :
  getEntityLink entity
  = match Entity.type entity with
    | None => Throw TypeError
    | Some type =>
        Return ("/" +:+ toLowerCase type +:+ "/" +:+ ToString (Entity.bbid entity))
    end.
Proof.
  unfold getEntityLink. destruct (Entity.type entity); [|done].
  by rewrite TemplateLiteral_link.
Qed.

(** C7. For an entity whose [type] and [bbid] are populated,
    [getEntityLink] returns ["/"], the lowercased type, ["/"] and the bbid.
    The lowercased type is what the built-in [toLowerCase] of the runtime
    gives for the type, whatever the type's characters.  Nothing is asked of
    the two strings: neither is validated. *)
Theorem getEntityLink_spec `{StringBuiltins}
    (entity : Entity.t) (type bbid : string) :
  Entity.type entity = Some type →
  Entity.bbid entity = Some bbid →
  getEntityLink entity = Return ("/" +:+ toLowerCase type +:+ "/" +:+ bbid).
Proof. intros Ht Hb. by rewrite getEntityLink_cases, Ht, Hb. Qed.

Lemma getEntityLink_spec_witness :
  fst (isValidBBID "not-a-bbid" _bbidRegex) = Return false
  ∧ getEntityLink (builtins := ascii_builtins)
      (Entity.mk (Some "Work") (Some "not-a-bbid") None None)
    = Return "/work/not-a-bbid".
Proof.
  split; [reflexivity|].
  apply (getEntityLink_spec (H := ascii_builtins) _ "Work" "not-a-bbid");
    reflexivity.
Defined.

(** C6. [createEntityPageTitle] returns the fallback title when the entity
    is absent or has no populated display name; otherwise it returns what
    the template function gives for [{name: entity.defaultAlias.name}]. *)
Theorem createEntityPageTitle_spec
    (entity : option Entity.t) (titleForUnnamed : string)
    (templateForNamed : NameFields → completion string) :
  let title := createEntityPageTitle entity titleForUnnamed templateForNamed in
  (entity = None → title = Return titleForUnnamed)
  ∧ (display_name entity = None → title = Return titleForUnnamed)
  ∧ (display_name entity ≠ None →
     ∃ e alias,
       entity = Some e ∧ Entity.defaultAlias e = Some alias
       ∧ Alias.name alias ≠ ""
       ∧ title = templateForNamed {| name := Alias.name alias |}).
Proof.
  cbv zeta. unfold createEntityPageTitle, display_name.
  destruct entity as [e|]; cbn; [|done].
  destruct (Entity.defaultAlias e) as [alias|] eqn:Halias; cbn; [|done].
  destruct (decide (Alias.name alias = "")) as [Heq|Hne].
  - rewrite bool_decide_eq_true_2 by done. cbn. done.
  - rewrite bool_decide_eq_false_2 by done. cbn.
    split_and!; [done|done|]. intros _. by exists e, alias.
Qed.

(** C9. When the entity has a default alias whose name is the empty string,
    [createEntityPageTitle] returns the fallback title whatever the
    template function is: the template is not called, a template that
    throws changes nothing. *)
Theorem createEntityPageTitle_empty_name
    (e : Entity.t) (alias : Alias.t) (titleForUnnamed : string)
    (templateForNamed : NameFields → completion string) :
  Entity.defaultAlias e = Some alias →
  Alias.name alias = "" →
  createEntityPageTitle (Some e) titleForUnnamed templateForNamed
  = Return titleForUnnamed.
Proof.
  intros Halias Hname. unfold createEntityPageTitle.
  by rewrite Halias, Hname.
Qed.

Lemma createEntityPageTitle_empty_name_witness :
  createEntityPageTitle
    (Some (Entity.mk (Some "Work") None (Some (Alias.mk "")) None))
    "Unnamed" (λ _, Throw TypeError)
  = Return "Unnamed".
Proof.
  apply (createEntityPageTitle_empty_name _ (Alias.mk "")); reflexivity.
Defined.

(** ** The deletion form *)

(** An error that is the empty string is falsy: [render] shows no alert for
    it. *)
Lemma render_empty_error `{StringBuiltins} (this this' : EntityDeletionForm.t)
    (view : EntityDeletionForm.View) :
  EntityDeletionForm.error (EntityDeletionForm.state this) = Some "" →
  EntityDeletionForm.render this = Return (this', view) →
  EntityDeletionForm.errorComponent view = None.
Proof.
  intros Herror. unfold EntityDeletionForm.render.
  destruct (Entity.type (EntityDeletionForm.entity this)); cbn; [|done].
  rewrite Herror. by intros [= <- <-].
Qed.

(** [render] fails exactly when [getEntityLink] does, with the same error. *)
Lemma render_throws `{StringBuiltins} (this : EntityDeletionForm.t) (e : exn) :
  EntityDeletionForm.render this = Throw e
  ↔ getEntityLink (EntityDeletionForm.entity this) = Throw e.
Proof.
  unfold EntityDeletionForm.render, getEntityLink.
  destruct (Entity.type (EntityDeletionForm.entity this)); cbn.
  - split; intros [=].
  - split; intros [= <-]; reflexivity.
Qed.

(** C10. For an entity with [type] and [bbid], the URL [render] stores in
    [entityUrl] is the entity link of [getEntityLink]; it is the target of
    the Cancel button, and [deleteUrl], which [handleSubmit] posts to, is
    this link followed by ["/delete/handler"]. *)
Theorem EntityDeletionForm_entityUrl `{StringBuiltins}
    (this : EntityDeletionForm.t) :
  populated (EntityDeletionForm.entity this) →
  ∃ this' view link,
    EntityDeletionForm.render this = Return (this', view)
    ∧ getEntityLink (EntityDeletionForm.entity this) = Return link
    ∧ EntityDeletionForm.entityUrl this' = Some link
    ∧ EntityDeletionForm.cancelHref view = link
    ∧ EntityDeletionForm.deleteUrl this' = Some (link +:+ "/delete/handler")
    ∧ (EntityDeletionForm.handleSubmit this').2 = Some (link +:+ "/delete/handler").
Proof.
  intros [[type Ht] [bbid Hb]].
  unfold EntityDeletionForm.render, getEntityLink. rewrite Ht, Hb. cbn.
  eexists _, _, _. split_and!; reflexivity.
Qed.

Lemma EntityDeletionForm_entityUrl_witness :
  ∃ this' view link,
    EntityDeletionForm.render (builtins := ascii_builtins)
      (EntityDeletionForm.constructor
         (Entity.mk (Some "Work") (Some "123e4567-e89b-12d3-a456-426614174000")
            None None))
    = Return (this', view)
    ∧ getEntityLink (builtins := ascii_builtins)
        (Entity.mk (Some "Work") (Some "123e4567-e89b-12d3-a456-426614174000")
           None None)
      = Return link
    ∧ EntityDeletionForm.entityUrl this' = Some link
    ∧ EntityDeletionForm.cancelHref view = link
    ∧ EntityDeletionForm.deleteUrl this' = Some (link +:+ "/delete/handler")
    ∧ (EntityDeletionForm.handleSubmit this').2 = Some (link +:+ "/delete/handler").
Proof.
  apply (EntityDeletionForm_entityUrl (H := ascii_builtins)
           (EntityDeletionForm.constructor
              (Entity.mk (Some "Work")
                 (Some "123e4567-e89b-12d3-a456-426614174000") None None))).
  split; cbn; eexists; reflexivity.
Defined.

(** ** The examples of the specification, run on the model *)

Example isValidBBID_valid :
  isValidBBID "123e4567-e89b-12d3-a456-426614174000" _bbidRegex
  = (Return true, _bbidRegex).
Proof. reflexivity. Qed.

Example isValidBBID_uppercase :
  isValidBBID "123E4567-E89B-12D3-A456-426614174000" _bbidRegex
  = (Return false, _bbidRegex).
Proof. reflexivity. Qed.

Example isValidBBID_dash_misplaced :
  isValidBBID "123e456-7e89b-12d3-a456-426614174000" _bbidRegex
  = (Return false, _bbidRegex).
Proof. reflexivity. Qed.

Example isValidBBID_too_long :
  isValidBBID "123e4567-e89b-12d3-a456-4266141740000" _bbidRegex
  = (Return false, _bbidRegex).
Proof. reflexivity. Qed.

Example isValidBBID_trailing_newline :
  isValidBBID
    ("123e4567-e89b-12d3-a456-426614174000" +:+ String "010"%char "")
    _bbidRegex
  = (Return false, _bbidRegex).
Proof. reflexivity. Qed.

(** On a type of ASCII characters the link is fixed by what is known of
    [toLowerCase], whatever the built-in does elsewhere. *)
Lemma getEntityLink_ascii `{StringBuiltins} (entity : Entity.t) (type : string) :
  Entity.type entity = Some type → ascii_only type →
  getEntityLink entity
  = Return ("/" +:+ toLowerCase_ascii type +:+ "/"
            +:+ ToString (Entity.bbid entity)).
Proof.
  intros Ht Hascii.
  by rewrite getEntityLink_cases, Ht, (toLowerCase_ascii_only _ Hascii).
Qed.

Example getEntityLink_work `{StringBuiltins} :
  getEntityLink
    (Entity.mk (Some "Work") (Some "123e4567-e89b-12d3-a456-426614174000")
       None None)
  = Return "/work/123e4567-e89b-12d3-a456-426614174000".
Proof.
  rewrite (getEntityLink_ascii _ "Work"); [reflexivity|reflexivity|].
  repeat constructor.
Qed.

Example getEntityLink_no_bbid `{StringBuiltins} :
  getEntityLink (Entity.mk (Some "Work") None None None)
  = Return "/work/undefined".
Proof.
  rewrite (getEntityLink_ascii _ "Work"); [reflexivity|reflexivity|].
  repeat constructor.
Qed.

Example getEntityModelByType_Creator :
  getEntityModelByType (<["Creator" := VObject (Ref 1)]> ∅) "Creator"
  = Return (VObject (Ref 1)).
Proof. reflexivity. Qed.

Example getEntityModelByType_Nonexistent :
  getEntityModelByType (<["Creator" := VObject (Ref 1)]> ∅) "Nonexistent"
  = Throw (Error "Unrecognized entity type: 'Nonexistent'").
Proof. reflexivity. Qed.

Example getImportModelByType_Nonexistent :
  getImportModelByType (<["CreatorImport" := VObject (Ref 1)]> ∅) "Nonexistent"
  = Throw (Error "Unrecognized import type").
Proof. reflexivity. Qed.

Example filterIdentifierTypesByEntityType_Work :
  filterIdentifierTypesByEntityType
    [IdentifierType.mk 1 "Work" ""; IdentifierType.mk 2 "Creator" ""]
    (Some "Work")
  = [IdentifierType.mk 1 "Work" ""].
Proof. reflexivity. Qed.

Example filterIdentifierTypesByEntity_cross_type :
  filterIdentifierTypesByEntity
    [IdentifierType.mk 9 "Creator" ""; IdentifierType.mk 2 "Work" "";
     IdentifierType.mk 3 "Edition" ""]
    (Entity.mk (Some "Work") None None
       (Some (IdentifierSet.mk
                [Identifier.mk (IdentifierType.mk 9 "Creator" "") "x"])))
  = [IdentifierType.mk 9 "Creator" ""; IdentifierType.mk 2 "Work" ""].
Proof. reflexivity. Qed.

Example createEntityPageTitle_Alice :
  createEntityPageTitle
    (Some (Entity.mk None None (Some (Alias.mk "Alice")) None)) "Unnamed"
    (λ t, Return (TemplateLiteral ["Edit "; ""] [name t]))
  = Return "Edit Alice".
Proof. reflexivity. Qed.

Example createEntityPageTitle_null :
  createEntityPageTitle None "Unnamed"
    (λ t, Return (TemplateLiteral ["Edit "; ""] [name t]))
  = Return "Unnamed".
Proof. reflexivity. Qed.

(** * Further properties of the code *)

(** ** Registries *)

Lemma sample_orm_exposes_entities : exposes sample_orm entityKinds.
Proof.
  intros k. unfold entityKinds. rewrite !elem_of_cons, elem_of_nil.
  intros [->|[->|[->|[->|[->|[]]]]]]; eexists; reflexivity.
Qed.

Lemma sample_orm_exposes_imports : exposes sample_orm importKinds.
Proof.
  intros k. unfold importKinds. rewrite !elem_of_cons, elem_of_nil.
  intros [->|[->|[->|[->|[->|[]]]]]]; eexists; reflexivity.
Qed.

Lemma getEntityModelByType_known_witness :
  ∃ o, sample_orm !! "Work" = Some (VObject o)
       ∧ getEntityModelByType sample_orm "Work" = Return (VObject o).
Proof.
  apply (getEntityModelByType_known sample_orm "Work").
  - exact sample_orm_exposes_entities.
  - apply (bool_decide_unpack _). vm_compute. exact I.
Defined.

Lemma getImportModelByType_known_witness :
  ∃ o, sample_orm !! "WorkImport" = Some (VObject o)
       ∧ getImportModelByType sample_orm "WorkImport" = Return (VObject o).
Proof.
  apply (getImportModelByType_known sample_orm "WorkImport").
  - exact sample_orm_exposes_imports.
  - apply (bool_decide_unpack _). vm_compute. exact I.
Defined.

Lemma getEntityModelByType_unknown_witness :
  getEntityModelByType sample_orm "Editor"
  = Throw (Error ("Unrecognized entity type: '" +:+ "Editor" +:+ "'")).
Proof.
  apply (getEntityModelByType_unknown sample_orm "Editor").
  - apply (bool_decide_unpack _). vm_compute. exact I.
  - vm_compute. reflexivity.
Defined.

Lemma getEntityModelByType_truthy_witness :
  ToBoolean (VObject (Ref 5)) = true.
Proof.
  apply (getEntityModelByType_truthy sample_orm "Work"). vm_compute. reflexivity.
Defined.

Lemma registry_errors_distinct_witness :
  Error "Unrecognized entity type: 'Nonexistent'" ≠ Error "Unrecognized import type".
Proof.
  apply (registry_errors_distinct sample_orm "Nonexistent" "Nonexistent");
    vm_compute; reflexivity.
Defined.

(** A kind whose model the ORM handle lacks is reported like an unknown
    name: the literal holds [undefined] under it. *)
Theorem getEntityModelByType_missing_model
    (orm : gmap string value) (type : string) :
  type ∈ entityKinds → orm !! type = None →
  getEntityModelByType orm type
  = Throw (Error ("Unrecognized entity type: '" +:+ type +:+ "'")).
Proof.
  intros Hin Hnone.
  assert (Object_prototype !! type = None) as Hproto.
  { revert Hin. unfold entityKinds. rewrite !elem_of_cons, elem_of_nil.
    intros [->|[->|[->|[->|[->|[]]]]]]; reflexivity. }
  unfold getEntityModelByType. cbv zeta. unfold Get at 1.
  rewrite (getEntityModels_own orm type Hin).
  unfold Get. by rewrite Hnone, Hproto.
Qed.

Lemma getEntityModelByType_missing_model_witness :
  getEntityModelByType (delete "Work" sample_orm) "Work"
  = Throw (Error ("Unrecognized entity type: '" +:+ "Work" +:+ "'")).
Proof.
  apply (getEntityModelByType_missing_model (delete "Work" sample_orm) "Work").
  - apply (bool_decide_unpack _). vm_compute. exact I.
  - vm_compute. reflexivity.
Defined.

(** The two registries are disjoint: the entity lookup reports every import
    kind and the import lookup reports every entity kind, whatever the ORM
    handle holds. *)
Theorem registries_disjoint (orm : gmap string value) (type : string) :
  (type ∈ importKinds →
   getEntityModelByType orm type
   = Throw (Error ("Unrecognized entity type: '" +:+ type +:+ "'")))
  ∧ (type ∈ entityKinds →
     getImportModelByType orm type = Throw (Error "Unrecognized import type")).
Proof.
  split.
  - unfold importKinds. rewrite !elem_of_cons, elem_of_nil.
    intros [->|[->|[->|[->|[->|[]]]]]];
      (unfold getEntityModelByType; cbv zeta; unfold Get;
       rewrite getEntityModels_other;
       [reflexivity|apply (bool_decide_unpack _); vm_compute; exact I]).
  - unfold entityKinds. rewrite !elem_of_cons, elem_of_nil.
    intros [->|[->|[->|[->|[->|[]]]]]];
      (unfold getImportModelByType; cbv zeta; unfold Get;
       rewrite getImportModels_other;
       [reflexivity|apply (bool_decide_unpack _); vm_compute; exact I]).
Qed.

(** ** BBIDs *)

(** A call of [isValidBBID] does not depend on the calls before it: the
    expression has no [g] or [y] flag, so the object a call leaves behind
    answers like the one it started from. *)
Theorem isValidBBID_history_independent (s1 s2 : string) (idx : nat) :
  let R := RegExp.mk (RegExp.source _bbidRegex) (RegExp.flags _bbidRegex) idx in
  isValidBBID s2 (isValidBBID s1 R).2 = isValidBBID s2 R.
Proof. cbv zeta. by rewrite (isValidBBID_accepts s1 idx). Qed.

Lemma Forall_hex_group n (w : list ascii) :
  Words.accepts (RegExp.Repeat hex n) w = true →
  Forall (λ ch, ch ∈ hexdigits ∨ ch = "-"%char) w.
Proof.
  unfold hex. intros [_ Hall]%accepts_Repeat_Class.
  eapply Forall_impl; [exact Hall|].
  intros ch Hch. left. cbv beta in Hch. rewrite in_ranges_hex in Hch.
  by apply bool_decide_eq_true in Hch.
Qed.

(** What [isValidBBID] accepts has 36 characters, each a lowercase
    hexadecimal digit or a dash. *)
Theorem isValidBBID_shape (s : string) :
  isValidBBID s _bbidRegex = (Return true, _bbidRegex) →
  String.length s = 36
  ∧ Forall (λ ch, ch ∈ hexdigits ∨ ch = "-"%char) (list_ascii_of_string s).
Proof.
  pose proof (isValidBBID_accepts s 0) as H. cbv zeta in H.
  change (RegExp.mk _ _ 0) with _bbidRegex in H. rewrite H.
  intros Heq.
  assert (Words.accepts bbid_body (list_ascii_of_string s) = true) as Hacc
    by congruence.
  clear Heq H. split.
  - rewrite <- length_list_ascii_of_string.
    by rewrite (accepts_length _ _ Hacc).
  - apply accepts_bbid_body_list in Hacc
      as (a & b & c & d & e & -> & Ha & Hb & Hc & Hd & He).
    repeat (apply Forall_app; split);
      eauto using Forall_hex_group;
      by apply Forall_singleton; right.
Qed.

Lemma isValidBBID_shape_witness :
  String.length "123e4567-e89b-12d3-a456-426614174000" = 36
  ∧ Forall (λ ch, ch ∈ hexdigits ∨ ch = "-"%char)
      (list_ascii_of_string "123e4567-e89b-12d3-a456-426614174000").
Proof.
  apply (isValidBBID_shape "123e4567-e89b-12d3-a456-426614174000").
  vm_compute. reflexivity.
Defined.

(** ** Entity links *)

Lemma ascii_toLowerCase_slash c :
  ascii_toLowerCase c = "/"%char → c = "/"%char.
Proof. destruct c as [[] [] [] [] [] [] [] []]; vm_compute; congruence. Qed.

Lemma toLowerCase_ascii_slash_free s :
  slash_free s → slash_free (toLowerCase_ascii s).
Proof.
  unfold slash_free. induction s as [|c s IH]; [done|].
  cbn. rewrite !not_elem_of_cons. intros [Hc Hs]. split; [|by apply IH].
  intros Heq. apply Hc. symmetry. by apply ascii_toLowerCase_slash.
Qed.

Lemma append_String (c : ascii) (a s : string) :
  String c a +:+ s = String c (a +:+ s).
Proof. reflexivity. Qed.

Lemma append_empty_l (s : string) : "" +:+ s = s.
Proof. reflexivity. Qed.

(** Two paths [a/b] with no slash in [a] are equal only when both parts
    are. *)
Lemma append_slash_inj (a a' b b' : string) :
  slash_free a → slash_free a' →
  a +:+ "/" +:+ b = a' +:+ "/" +:+ b' → a = a' ∧ b = b'.
Proof.
  unfold slash_free. revert a'.
  induction a as [|c a IH]; intros [|c' a'];
    rewrite ?append_String, ?append_empty_l; cbn [list_ascii_of_string];
    rewrite ?not_elem_of_cons.
  - intros _ _ [= ->]. done.
  - intros _ [Hc' _] [= <- _]. done.
  - intros [Hc _] _ [= -> _]. done.
  - intros [_ Ha] [_ Ha'] [= -> Hrest].
    destruct (IH a' Ha Ha' Hrest) as [-> ->]. done.
Qed.

(** Two populated entities whose types have no slash in their lowercase
    form ([toLowerCase] of the type) have the same link exactly when these
    lowercase forms are equal and their bbids are equal. *)
Theorem getEntityLink_injective `{StringBuiltins}
    (e1 e2 : Entity.t) (t1 t2 b1 b2 : string) :
  Entity.type e1 = Some t1 → Entity.bbid e1 = Some b1 →
  Entity.type e2 = Some t2 → Entity.bbid e2 = Some b2 →
  slash_free (toLowerCase t1) → slash_free (toLowerCase t2) →
  getEntityLink e1 = getEntityLink e2
  ↔ toLowerCase t1 = toLowerCase t2 ∧ b1 = b2.
Proof.
  intros Ht1 Hb1 Ht2 Hb2 Hs1 Hs2.
  rewrite !getEntityLink_cases, Ht1, Hb1, Ht2, Hb2. cbn [ToString]. split.
  - intros [= Heq]. by apply append_slash_inj in Heq.
  - by intros [-> ->].
Qed.

Lemma getEntityLink_injective_witness :
  getEntityLink (builtins := ascii_builtins)
    (Entity.mk (Some "Work") (Some "b") None None)
  = getEntityLink (builtins := ascii_builtins)
      (Entity.mk (Some "WORK") (Some "b") None (Some (IdentifierSet.mk [])))
  ↔ toLowerCase_ascii "Work" = toLowerCase_ascii "WORK" ∧ "b" = "b".
Proof.
  apply (getEntityLink_injective (H := ascii_builtins)
           (Entity.mk (Some "Work") (Some "b") None None)
           (Entity.mk (Some "WORK") (Some "b") None (Some (IdentifierSet.mk [])))
           "Work" "WORK" "b" "b");
    try reflexivity;
    apply (bool_decide_unpack _); vm_compute; exact I.
Defined.

(** An entity without [type] has no link: the call throws a [TypeError].  An
    entity with a type but without [bbid] gets a link that ends in
    [undefined], after the lowercase form of the type that [toLowerCase]
    gives. *)
Theorem getEntityLink_unpopulated `{StringBuiltins} (entity : Entity.t) :
  (Entity.type entity = None → getEntityLink entity = Throw TypeError)
  ∧ (∀ type, Entity.type entity = Some type → Entity.bbid entity = None →
     getEntityLink entity = Return ("/" +:+ toLowerCase type +:+ "/undefined")).
Proof.
  unfold getEntityLink. split.
  - by intros ->.
  - intros type -> ->. by rewrite TemplateLiteral_link.
Qed.

(** ** Identifier types *)

(** The types of the entity's own kind are always among the types offered
    for the entity, in the same order. *)
Theorem filterIdentifierTypesByEntityType_sublist
    (identifierTypes : list IdentifierType.t) (entity : Entity.t) :
  filterIdentifierTypesByEntityType identifierTypes (Entity.type entity)
  `sublist_of` filterIdentifierTypesByEntity identifierTypes entity.
Proof.
  rewrite filterIdentifierTypesByEntityType_filter,
    filterIdentifierTypesByEntity_filter.
  induction identifierTypes as [|type types IH]; [done|].
  rewrite !filter_cons.
  destruct (decide (Some (IdentifierType.entityType type) = Entity.type entity))
    as [Heq|Hne].
  - rewrite decide_True by by left. by apply sublist_skip.
  - destruct (decide (applies_to entity type)); [by apply sublist_cons|done].
Qed.

(** Filtering what the filter returned changes nothing. *)
Theorem filterIdentifierTypesByEntity_idempotent
    (identifierTypes : list IdentifierType.t) (entity : Entity.t) :
  filterIdentifierTypesByEntity
    (filterIdentifierTypesByEntity identifierTypes entity) entity
  = filterIdentifierTypesByEntity identifierTypes entity.
Proof.
  rewrite !filterIdentifierTypesByEntity_filter, list_filter_filter.
  apply list_filter_iff. tauto.
Qed.

(** The filter works element by element: a concatenated list gives the
    concatenated results. *)
Theorem filterIdentifierTypesByEntity_app
    (types1 types2 : list IdentifierType.t) (entity : Entity.t) :
  filterIdentifierTypesByEntity (types1 ++ types2) entity
  = filterIdentifierTypesByEntity types1 entity
    ++ filterIdentifierTypesByEntity types2 entity.
Proof. rewrite !filterIdentifierTypesByEntity_filter. apply filter_app. Qed.

(** Only the type of the entity and the set of type ids on its identifiers
    matter: their order, their repetitions and the other fields of the
    entity do not. *)
Theorem filterIdentifierTypesByEntity_ext
    (identifierTypes : list IdentifierType.t) (e1 e2 : Entity.t) :
  Entity.type e1 = Entity.type e2 →
  (∀ i, i ∈ type_ids_on e1 ↔ i ∈ type_ids_on e2) →
  filterIdentifierTypesByEntity identifierTypes e1
  = filterIdentifierTypesByEntity identifierTypes e2.
Proof.
  intros Htype Hids. rewrite !filterIdentifierTypesByEntity_filter.
  apply list_filter_iff. intros type. unfold applies_to.
  by rewrite Htype, Hids.
Qed.

Lemma filterIdentifierTypesByEntity_ext_witness :
  let isbn := IdentifierType.mk 9 "Edition" "ISBN" in
  let wiki := IdentifierType.mk 4 "Work" "Wikidata" in
  let types := [isbn; wiki; IdentifierType.mk 3 "Creator" "VIAF"] in
  filterIdentifierTypesByEntity types
    (Entity.mk (Some "Work") None None
       (Some (IdentifierSet.mk
                [Identifier.mk isbn "x"; Identifier.mk wiki "y";
                 Identifier.mk isbn "z"])))
  = filterIdentifierTypesByEntity types
      (Entity.mk (Some "Work") (Some "b") (Some (Alias.mk "n"))
         (Some (IdentifierSet.mk [Identifier.mk wiki "y"; Identifier.mk isbn "x"]))).
Proof.
  cbv zeta. apply filterIdentifierTypesByEntity_ext; [reflexivity|].
  intros i. cbn. rewrite !elem_of_cons, elem_of_nil. tauto.
Defined.

(** ** The deletion form: renders and submissions *)

(** Rendering again what [render] left gives the same instance and the same
    view: [render] changes nothing but the two URL fields, and those only
    the first time. *)
Theorem EntityDeletionForm_render_idempotent `{StringBuiltins}
    (this this' : EntityDeletionForm.t) (view : EntityDeletionForm.View) :
  EntityDeletionForm.render this = Return (this', view) →
  EntityDeletionForm.render this' = Return (this', view)
  ∧ EntityDeletionForm.state this' = EntityDeletionForm.state this
  ∧ EntityDeletionForm.entity this' = EntityDeletionForm.entity this.
Proof.
  unfold EntityDeletionForm.render.
  destruct (Entity.type (EntityDeletionForm.entity this)) as [type|] eqn:Ht;
    cbn; [|done].
  intros [= <- <-]. cbn. rewrite Ht. cbn. done.
Qed.

Lemma EntityDeletionForm_render_idempotent_witness :
  let this :=
    EntityDeletionForm.constructor
      (Entity.mk (Some "Edition") (Some "b") (Some (Alias.mk "Dune")) None) in
  let this' :=
    EntityDeletionForm.mk (EntityDeletionForm.entity this)
      (EntityDeletionForm.state this) (Some "/edition/b")
      (Some "/edition/b/delete/handler") in
  let view :=
    EntityDeletionForm.mkView None false "/edition/b" (Some "Edition") "Dune" in
  EntityDeletionForm.render (builtins := ascii_builtins) this' = Return (this', view)
  ∧ EntityDeletionForm.state this' = EntityDeletionForm.state this
  ∧ EntityDeletionForm.entity this' = EntityDeletionForm.entity this.
Proof.
  cbv zeta. apply (EntityDeletionForm_render_idempotent (H := ascii_builtins)). reflexivity.
Defined.

(** After a render, [handleSubmit] posts to the [deleteUrl] of that render,
    and while the request is pending the form renders with the spinner,
    without alert and with the same Cancel link. *)
Theorem EntityDeletionForm_pending `{StringBuiltins}
    (this this' : EntityDeletionForm.t) (view : EntityDeletionForm.View) :
  EntityDeletionForm.render this = Return (this', view) →
  let submitted := (EntityDeletionForm.handleSubmit this').1 in
  (EntityDeletionForm.handleSubmit this').2
  = Some (EntityDeletionForm.cancelHref view +:+ "/delete/handler")
  ∧ ∃ view',
      EntityDeletionForm.render submitted = Return (submitted, view')
      ∧ EntityDeletionForm.loadingComponent view' = true
      ∧ EntityDeletionForm.errorComponent view' = None
      ∧ EntityDeletionForm.cancelHref view' = EntityDeletionForm.cancelHref view
      ∧ EntityDeletionForm.entityName view' = EntityDeletionForm.entityName view.
Proof.
  unfold EntityDeletionForm.render.
  destruct (Entity.type (EntityDeletionForm.entity this)) as [type|] eqn:Ht;
    cbn; [|done].
  intros [= <- <-]. cbn. rewrite Ht. cbn. split; [done|].
  eexists. split_and!; reflexivity.
Qed.

Lemma EntityDeletionForm_pending_witness :
  let this :=
    EntityDeletionForm.constructor
      (Entity.mk (Some "Edition") (Some "b") None None) in
  let this' :=
    EntityDeletionForm.mk (EntityDeletionForm.entity this)
      (EntityDeletionForm.state this) (Some "/edition/b")
      (Some "/edition/b/delete/handler") in
  let view :=
    EntityDeletionForm.mkView None false "/edition/b" (Some "Edition")
      "(unnamed)" in
  let submitted := (EntityDeletionForm.handleSubmit this').1 in
  (EntityDeletionForm.handleSubmit this').2
  = Some (EntityDeletionForm.cancelHref view +:+ "/delete/handler")
  ∧ ∃ view',
      EntityDeletionForm.render (builtins := ascii_builtins) submitted = Return (submitted, view')
      ∧ EntityDeletionForm.loadingComponent view' = true
      ∧ EntityDeletionForm.errorComponent view' = None
      ∧ EntityDeletionForm.cancelHref view' = EntityDeletionForm.cancelHref view
      ∧ EntityDeletionForm.entityName view' = EntityDeletionForm.entityName view.
Proof.
  cbv zeta.
  apply (EntityDeletionForm_pending (H := ascii_builtins)
           (EntityDeletionForm.constructor
              (Entity.mk (Some "Edition") (Some "b") None None))).
  reflexivity.
Defined.

(** When the request fails with an error message that is not empty, the
    next render shows this message, no spinner, and the Cancel link the
    form had before the submission; a new submission posts to the same
    URL. *)
Theorem EntityDeletionForm_failed `{StringBuiltins}
    (this this' : EntityDeletionForm.t) (view : EntityDeletionForm.View)
    (message : string) :
  EntityDeletionForm.render this = Return (this', view) →
  message ≠ "" →
  let failed :=
    EntityDeletionForm.handleSubmit_catch
      (EntityDeletionForm.handleSubmit this').1 (Some message) in
  (∃ view',
      EntityDeletionForm.render failed = Return (failed, view')
      ∧ EntityDeletionForm.loadingComponent view' = false
      ∧ EntityDeletionForm.errorComponent view' = Some message
      ∧ EntityDeletionForm.cancelHref view' = EntityDeletionForm.cancelHref view)
  ∧ (EntityDeletionForm.handleSubmit failed).2
    = (EntityDeletionForm.handleSubmit this').2.
Proof.
  unfold EntityDeletionForm.render.
  destruct (Entity.type (EntityDeletionForm.entity this)) as [type|] eqn:Ht;
    cbn; [|done].
  intros [= <- <-] Hmessage. cbn. rewrite Ht. cbn.
  rewrite bool_decide_eq_false_2 by done. cbn. split; [|done].
  eexists. split_and!; reflexivity.
Qed.

Lemma EntityDeletionForm_failed_witness :
  let this :=
    EntityDeletionForm.constructor
      (Entity.mk (Some "Edition") (Some "b") None None) in
  let this' :=
    EntityDeletionForm.mk (EntityDeletionForm.entity this)
      (EntityDeletionForm.state this) (Some "/edition/b")
      (Some "/edition/b/delete/handler") in
  let view :=
    EntityDeletionForm.mkView None false "/edition/b" (Some "Edition")
      "(unnamed)" in
  let failed :=
    EntityDeletionForm.handleSubmit_catch
      (EntityDeletionForm.handleSubmit this').1 (Some "No permission") in
  (∃ view',
      EntityDeletionForm.render (builtins := ascii_builtins) failed = Return (failed, view')
      ∧ EntityDeletionForm.loadingComponent view' = false
      ∧ EntityDeletionForm.errorComponent view' = Some "No permission"
      ∧ EntityDeletionForm.cancelHref view' = EntityDeletionForm.cancelHref view)
  ∧ (EntityDeletionForm.handleSubmit failed).2
    = (EntityDeletionForm.handleSubmit this').2.
Proof.
  cbv zeta.
  apply (EntityDeletionForm_failed (H := ascii_builtins)
           (EntityDeletionForm.constructor
              (Entity.mk (Some "Edition") (Some "b") None None)));
    [reflexivity|discriminate].
Defined.

(** ** The name section actions *)

(** The action [handleNameChange] dispatches at once is the action
    [debouncedUpdateNameField] creates for the same name; it is the only
    one dispatched before the answer, and the request asks [/search/exists]
    for the name in the collection of the entity type. *)
Theorem handleNameChange_dispatches_name
    (newName entityType : string) (dispatched : list Actions.Action) :
  Actions.handleNameChange newName entityType dispatched
  = (dispatched ++ [Actions.debouncedUpdateNameField newName],
     Actions.mkRequest "/search/exists"
       [("collection", entityType); ("q", newName)]).
Proof. reflexivity. Qed.

(** From the thunk to the end of the request: a fulfilled request adds one
    [UPDATE_WARN_IF_EXISTS] action whose payload is [true] exactly for the
    body ["true"]; a rejected request adds none. *)
Theorem handleNameChange_outcomes
    (newName entityType : string) (dispatched : list Actions.Action) :
  let started := (Actions.handleNameChange newName entityType dispatched).1 in
  (∀ res_text,
     ∃ b : bool,
       Actions.handleNameChange_then res_text started
       = dispatched
         ++ [Actions.debouncedUpdateNameField newName;
             Actions.mkAction (Some (Actions.mkMeta "keystroke"))
               (Actions.PBoolean b) Actions.UPDATE_WARN_IF_EXISTS]
       ∧ (b = true ↔ res_text = Some "true"))
  ∧ (∀ error,
       Actions.handleNameChange_catch error started
       = (dispatched ++ [Actions.debouncedUpdateNameField newName], error)).
Proof.
  cbv zeta. split.
  - intros res_text. exists (strict_eq "true" res_text). split.
    + unfold Actions.handleNameChange_then, Actions.handleNameChange. cbn.
      by rewrite <- app_assoc.
    + unfold strict_eq. rewrite bool_decide_eq_true. split; congruence.
  - done.
Qed.

(** ** The [template] tag *)

Section TemplateFacts.
Variable ToString_other : value → string.


Lemma Array_join_cons v elements :
  Array_join ToString_other "" (v :: elements)
  = join_element ToString_other v +:+ Array_join ToString_other "" elements.
Proof.
  destruct elements as [|v' elements]; [|done].
  cbn. by rewrite append_empty_r.
Qed.

Lemma append_assoc (a b c : string) : (a +:+ b) +:+ c = a +:+ b +:+ c.
Proof.
  induction a as [|ch a IH]; [done|].
  rewrite !append_String. by rewrite IH.
Qed.

Lemma Array_join_app l1 l2 :
  Array_join ToString_other "" (l1 ++ l2)
  = Array_join ToString_other "" l1 +:+ Array_join ToString_other "" l2.
Proof.
  induction l1 as [|v l1 IH]; [done|].
  rewrite <- app_comm_cons, !Array_join_cons, IH. by rewrite append_assoc.
Qed.

(** The loop of [template], entered at key index [n] with the string at
    [n] pushed last: what is joined in the end is what was there, followed
    by the rest of the literal with the values between its strings. *)
Lemma template_loop (strings keys subs : list string) values n sn result :
  strings !! n = Some sn →
  length strings = S (n + length keys) →
  Forall2 (λ k s, join_element ToString_other (Get values k) = s) keys subs →
  Array_join ToString_other ""
    (fold_left
       (fun result ik => result ++ [Get values ik.2; string_at strings (ik.1 + 1)])
       (imap (λ i, pair (n + i)) keys) (result ++ [VString sn]))
  = Array_join ToString_other "" result
    +:+ TemplateLiteral (drop n strings) subs.
Proof.
  intros Hsn Hlen Hsubs. revert n sn result Hsn Hlen.
  induction Hsubs as [|k v keys subs Hv Hsubs IH]; intros n sn result Hsn Hlen.
  - cbn in Hlen |- *. rewrite Array_join_app. cbn.
    rewrite (drop_S _ _ _ Hsn), drop_ge by lia. done.
  - cbn [length] in Hlen.
    destruct (lookup_lt_is_Some_2 strings (S n)) as [s' Hs']; [lia|].
    cbn [imap fold_left fst snd].
    rewrite (imap_ext _ (λ i, pair (S n + i))) by (intros; cbn; f_equal; lia).
    unfold string_at at 2. rewrite Nat.add_0_r, Nat.add_1_r, Hs'.
    rewrite <- app_assoc.
    change ([VString sn] ++ [Get values k; VString s'])
      with ([VString sn; Get values k] ++ [VString s']).
    rewrite app_assoc, (IH (S n) s') by (done || lia).
    rewrite Array_join_app, (drop_S _ _ _ Hsn). cbn [TemplateLiteral].
    rewrite !Array_join_cons, Hv. cbn [Array_join join_element].
    rewrite append_empty_r.
    destruct (drop (S n) strings) eqn:Hdrop.
    { apply (f_equal length) in Hdrop. rewrite length_drop in Hdrop.
      cbn in Hdrop. lia. }
    by rewrite !append_assoc.
Qed.

(** Used as a tag, [template] gives what the untagged literal gives once
    each value is converted the way [join] converts it. *)
Lemma template_TemplateLiteral (strings keys subs : list string) values :
  length strings = S (length keys) →
  Forall2 (λ k s, join_element ToString_other (Get values k) = s) keys subs →
  template ToString_other strings keys values = TemplateLiteral strings subs.
Proof.
  intros Hlen Hsubs.
  destruct strings as [|s0 strings]; [done|].
  exact (template_loop (s0 :: strings) keys subs values 0 s0 [] eq_refl Hlen Hsubs).
Qed.
End TemplateFacts.

(** Used as a tag (one string more than keys) on an object whose
    properties under the keys are strings, [template] gives the string of
    the untagged template literal with these strings substituted. *)
Theorem template_string_values
    (ToString_other : value → string) (strings keys subs : list string)
    (values : gmap string value) :
  length strings = S (length keys) →
  Forall2 (λ k s, values !! k = Some (VString s)) keys subs →
  template ToString_other strings keys values = TemplateLiteral strings subs.
Proof.
  intros Hlen Hsubs. apply template_TemplateLiteral; [done|].
  eapply Forall2_impl; [exact Hsubs|].
  intros k s Hk. cbv beta in Hk. unfold Get. by rewrite Hk.
Qed.

Lemma template_string_values_witness :
  template (λ _, "?") ["Edit "; " ("; ")"] ["name"; "type"]
    (ObjectLiteral [("name", VString "Dune"); ("type", VString "Work")])
  = TemplateLiteral ["Edit "; " ("; ")"] ["Dune"; "Work"].
Proof.
  apply template_string_values; [reflexivity|].
  repeat constructor.
Defined.

(** A key the object has no property for, own or inherited, leaves nothing
    in the result: [join] turns [undefined] into the empty string, where the
    untagged literal would print [undefined]. *)
Theorem template_missing_keys
    (ToString_other : value → string) (strings keys : list string)
    (values : gmap string value) :
  length strings = S (length keys) →
  Forall (λ k, values !! k = None ∧ Object_prototype !! k = None) keys →
  template ToString_other strings keys values
  = TemplateLiteral strings (replicate (length keys) "").
Proof.
  intros Hlen Hkeys. apply template_TemplateLiteral; [done|].
  clear Hlen. induction Hkeys as [|k keys [Hown Hproto] _ IH]; cbn.
  - constructor.
  - constructor; [|exact IH]. unfold Get. by rewrite Hown, Hproto.
Qed.

Lemma template_missing_keys_witness :
  template (λ _, "?") ["Edit "; "!"] ["title"]
    (ObjectLiteral [("name", VString "Dune")])
  = TemplateLiteral ["Edit "; "!"] (replicate (length ["title"]) "").
Proof.
  apply template_missing_keys; [reflexivity|].
  repeat constructor.
Defined.

(** [createEntityPageTitle] with a template made by the tag
    [template`pre${'name'}post`]: the display name between the two strings
    when the entity has one, the fallback title otherwise. *)
Theorem createEntityPageTitle_template
    (ToString_other : value → string) (entity : option Entity.t)
    (titleForUnnamed pre post : string) :
  createEntityPageTitle entity titleForUnnamed
    (λ t, Return (template ToString_other [pre; post] ["name"]
                    (NameFields_object t)))
  = Return (match display_name entity with
            | Some n => pre +:+ n +:+ post
            | None => titleForUnnamed
            end).
Proof.
  unfold createEntityPageTitle, display_name.
  destruct entity as [e|]; cbn; [|done].
  destruct (Entity.defaultAlias e) as [alias|]; cbn; [|done].
  destruct (decide (Alias.name alias = "")) as [Heq|Hne].
  - by rewrite bool_decide_eq_true_2.
  - rewrite bool_decide_eq_false_2 by done. cbn. f_equal.
Qed.

(** ** [truncateTables] *)

Section TruncateFacts.
Context {DB : Type}.
Variable raw : string → DB → completion unit * DB.

Lemma Promise_each_app {A} (items1 items2 : list A) iterator (db : DB) :
  Promise_each (items1 ++ items2) iterator db
  = match Promise_each items1 iterator db with
    | (Return _, db') => Promise_each items2 iterator db'
    | (Throw e, db') => (Throw e, db')
    end.
Proof.
  revert db. induction items1 as [|item items1 IH]; intros db; [done|].
  cbn. destruct (iterator item db) as [[[]|e] db']; [apply IH|done].
Qed.
End TruncateFacts.

(** Truncating a concatenated list is truncating the first list and then,
    if that succeeded, the second one from the state reached; a failure in
    the first list is the failure of the whole and the second list is not
    touched. *)
Theorem truncateTables_app {DB : Type}
    (raw : string → DB → completion unit * DB)
    (tables1 tables2 : list string) (db : DB) :
  truncateTables raw (tables1 ++ tables2) db
  = match truncateTables raw tables1 db with
    | (Return _, db') =>
        match truncateTables raw tables2 db' with
        | (Return _, db'') => (Return (tables1 ++ tables2), db'')
        | (Throw e, db'') => (Throw e, db'')
        end
    | (Throw e, db') => (Throw e, db')
    end.
Proof.
  unfold truncateTables. rewrite Promise_each_app.
  destruct (Promise_each tables1 _ db) as [[[]|e] db']; [|done].
  by destruct (Promise_each tables2 _ db') as [[[]|e] db''].
Qed.

(** When every statement succeeds, [truncateTables] runs one
    [TRUNCATE table CASCADE] per table, in the order of the list, and
    resolves to the list.  Here the database records the statements it
    gets. *)
Theorem truncateTables_statements (tables : list string) (log : list string) :
  truncateTables (λ sql log, (Return (), log ++ [sql])) tables log
  = (Return tables,
     log ++ ((λ table, "TRUNCATE " +:+ table +:+ " CASCADE") <$> tables)).
Proof.
  unfold truncateTables.
  assert (∀ log,
            Promise_each tables
              (λ table (log : list string),
                 (Return (),
                  log ++ [TemplateLiteral ["TRUNCATE "; " CASCADE"] [table]]))
              log
            = (Return (),
               log ++ ((λ table, "TRUNCATE " +:+ table +:+ " CASCADE") <$> tables)))
    as ->; [|done].
  induction tables as [|table tables IH]; intros log'; cbn.
  - by rewrite app_nil_r.
  - rewrite IH, <- app_assoc. done.
Qed.

(** The first statement that is rejected ends the run: the rejection is the
    result, the database is as that statement left it, and the tables after
    it are not truncated. *)
Theorem truncateTables_stops {DB : Type}
    (raw : string → DB → completion unit * DB)
    (done : list string) (failing : string) (rest : list string)
    (db db1 db2 : DB) (e : exn) :
  truncateTables raw done db = (Return done, db1) →
  raw ("TRUNCATE " +:+ failing +:+ " CASCADE") db1 = (Throw e, db2) →
  truncateTables raw (done ++ failing :: rest) db = (Throw e, db2).
Proof.
  intros Hdone Hfail. unfold truncateTables in *.
  rewrite Promise_each_app.
  destruct (Promise_each done _ db) as [[[]|e'] db']; [|done].
  injection Hdone as <-. cbn. by rewrite Hfail.
Qed.

Lemma truncateTables_stops_witness :
  truncateTables
    (λ sql log,
       (if decide (sql = "TRUNCATE users CASCADE")
        then Throw (Error "permission denied") else Return (),
        log ++ [sql]))
    (["alias"] ++ "users" :: ["entity"]) []
  = (Throw (Error "permission denied"),
     ["TRUNCATE alias CASCADE"; "TRUNCATE users CASCADE"]).
Proof.
  apply (truncateTables_stops _ ["alias"] "users" ["entity"] []
           ["TRUNCATE alias CASCADE"]); reflexivity.
Defined.
